(** * dnsresolver.py: the recursive resolver, embedded and verified

    The resolver walks the DNS delegation tree from the root servers.  Its
    only function, [resolve], owns two Python lists ([nameservers] and
    [visited]), reads a third one that is global ([ROOT_SERVERS]), draws
    random candidates, talks to the network and calls itself for CNAME
    targets and for nameserver hostnames.

    The embedding keeps all of that explicit:
    - Python lists live in a store of mutable cells addressed by references,
      so that copying ([ROOT_SERVERS[:]]), rebinding ([nameservers = new_ns])
      and mutating in place ([remove], [append]) are different operations;
    - [random.choice] and [dns.query.udp] are answered by an environment,
      indexed by a clock that advances with every query;
    - exceptions are outcomes; the [try ... except] of the loop body is a
      handler on them;
    - recursion and the [while True] loop run on fuel; running out of it
      is an outcome of its own, which no handler catches.  Python's own
      recursion limit is not part of the model. *)

From Stdlib Require Import String List NArith Arith Bool Lia Permutation.
Import ListNotations.
Open Scope string_scope.
Open Scope list_scope.

Set Implicit Arguments.

(** ** DNS data, as dnspython hands it to the resolver *)

Module rdatatype.
(** dns.rdatatype: record types are small integers. *)
Definition A : N := 1.
Definition NS : N := 2.
Definition CNAME : N := 5.
End rdatatype.

(** One rdata of an RRset.  The resolver reads two attributes only:
    [.address] (present on address rdatas) and [.target] (present on NS and
    CNAME rdatas).  Reading an attribute an object lacks raises. *)
Inductive rdata : Type :=
| Address (address : string)
| Target (target : string)
| Opaque.

(** dns.rrset.RRset: an owner name, a type, and the rdatas.  Iterating an
    RRset iterates [items]; its truth value is [items <> []]. *)
Record rrset : Type := RRset {
  name : string;
  rdtype : N;
  items : list rdata
}.

(** dns.message.Message, restricted to the three sections that are read. *)
Record response : Type := Response {
  answer : list rrset;
  additional : list rrset;
  authority : list rrset
}.

(** Exceptions.  [Timeout] is dns.exception.Timeout; [NoMoreNameservers] is
    [Exception("No more nameservers to query.")]; the others are the
    built-in ones that the operations of the body can raise, and
    [TransportError] stands for whatever else dnspython or the socket
    raises while building, sending or decoding. *)
Inductive exn : Type :=
| Timeout
| TransportError
| IndexError
| AttributeError
| ValueError
| NoMoreNameservers.

(** What one call of [dns.query.udp] (after [make_query]) comes back with. *)
Inductive reply : Type :=
| Reply (r : response)
| Fail (e : exn).

(** ** The environment: randomness and the network

    [rand t] is the random draw and [udp t ns domain qtype] the network's
    reaction at the [t]-th query of the whole run. *)
Record world : Type := World {
  rand : nat -> nat;
  udp : nat -> string -> string -> N -> reply
}.

(** ** The store *)

Definition ref := nat.

(** What the run leaves behind for an observer: the datagrams it tried to
    send, each with the contents of the pool it was drawn from and the
    visited path at that moment, and the lines it printed. *)
Inductive event : Type :=
| Query (pool : list string) (ns : string) (path : list string)
        (domain : string) (qtype : N)
| PrintPath (path : list string)
| PrintCname (cname : string)
| PrintTimeout (ns : string)
| PrintError (e : exn).

(** [trace] has the newest event first. *)
Record state : Type := State {
  heap : ref -> list string;
  next : ref;
  clock : nat;
  trace : list event
}.

(** The literal of the module-level list (lines 19-33). *)
Definition ROOT_SERVERS : list string :=
  [ "198.41.0.4"; "199.9.14.201"; "192.33.4.12"; "199.7.91.13";
    "192.203.230.10"; "192.5.5.241"; "192.112.36.4"; "198.97.190.53";
    "192.36.148.17"; "192.58.128.30"; "193.0.14.129"; "199.7.83.42";
    "202.12.27.33" ].

(** The cell the global name [ROOT_SERVERS] is bound to. *)
Definition ROOT_SERVERS_ref : ref := 0.

(** The store once the module is loaded. *)
Definition module_loaded : state :=
  {| heap := fun l => if Nat.eqb l ROOT_SERVERS_ref then ROOT_SERVERS else [];
     next := 1; clock := 0; trace := [] |}.

(** ** Outcomes and the monad of the embedding *)

Inductive outcome (T : Type) : Type :=
| Done (v : T)
| Raise (e : exn)
| OutOfFuel.
Arguments Raise {T} e.
Arguments OutOfFuel {T}.

Definition M (T : Type) : Type := state -> outcome T * state.

Definition ret {T} (v : T) : M T := fun s => (Done v, s).
Definition raise {T} (e : exn) : M T := fun s => (Raise e, s).
Definition out_of_fuel {T} : M T := fun s => (OutOfFuel, s).

Definition bind {T U} (m : M T) (k : T -> M U) : M U :=
  fun s =>
    match m s with
    | (Done v, s') => k v s'
    | (Raise e, s') => (Raise e, s')
    | (OutOfFuel, s') => (OutOfFuel, s')
    end.

(** [try: m except h]: only exceptions reach the handler. *)
Definition try_except {T} (m : M T) (h : exn -> M T) : M T :=
  fun s =>
    match m s with
    | (Raise e, s') => h e s'
    | r => r
    end.

Declare Scope resolver_scope.
Delimit Scope resolver_scope with resolver.
Notation "x <- m ;; k" := (bind m (fun x => k))
  (at level 100, m at next level, right associativity) : resolver_scope.
Notation "m ;;; k" := (bind m (fun _ => k))
  (at level 100, right associativity) : resolver_scope.
Open Scope resolver_scope.

(** ** Operations on Python lists in the store *)

(** [l[:]] and list literals: a new cell. *)
Definition new_list (xs : list string) : M ref :=
  fun s =>
    (Done (next s),
     {| heap := fun l => if Nat.eqb l (next s) then xs else heap s l;
        next := S (next s); clock := clock s; trace := trace s |}).

Definition read (r : ref) : M (list string) :=
  fun s => (Done (heap s r), s).

Definition write (r : ref) (xs : list string) : M unit :=
  fun s =>
    (Done tt,
     {| heap := fun l => if Nat.eqb l r then xs else heap s l;
        next := next s; clock := clock s; trace := trace s |}).

Definition list_copy (r : ref) : M ref :=
  xs <- read r ;; new_list xs.

(** [list.remove(x)] on a value: the first occurrence goes; [None] is
    Python's ValueError. *)
Fixpoint remove_first (x : string) (xs : list string) : option (list string) :=
  match xs with
  | [] => None
  | y :: ys =>
      if String.eqb x y then Some ys
      else match remove_first x ys with
           | Some ys' => Some (y :: ys')
           | None => None
           end
  end.

Definition list_remove (r : ref) (x : string) : M unit :=
  xs <- read r ;;
  match remove_first x xs with
  | Some xs' => write r xs'
  | None => raise ValueError
  end.

Definition list_append (r : ref) (x : string) : M unit :=
  xs <- read r ;; write r (xs ++ [x]).

Definition print (e : event) : M unit :=
  fun s =>
    (Done tt,
     {| heap := heap s; next := next s; clock := clock s;
        trace := e :: trace s |}).

Definition is_empty {T} (xs : list T) : bool :=
  match xs with [] => true | _ => false end.

(** Lifting a pure computation that can fail with one exception. *)
Definition or_raise {T} (e : exn) (o : option T) : M T :=
  match o with Some v => ret v | None => raise e end.

(** ** Reading attributes and sections *)

Definition address_of (item : rdata) : option string :=
  match item with Address a => Some a | _ => None end.

Definition target_of (item : rdata) : option string :=
  match item with Target t => Some t | _ => None end.

(** [for item in add: new_ns.append(item.address)]; [None] is the
    AttributeError of an rdata without [.address]. *)
Fixpoint append_addresses (new_ns : list string) (its : list rdata)
  : option (list string) :=
  match its with
  | [] => Some new_ns
  | item :: rest =>
      match address_of item with
      | Some a => append_addresses (new_ns ++ [a]) rest
      | None => None
      end
  end.

(** [for item in auth: ns_names.append(str(item.target))]. *)
Fixpoint append_targets (ns_names : list string) (its : list rdata)
  : option (list string) :=
  match its with
  | [] => Some ns_names
  | item :: rest =>
      match target_of item with
      | Some t => append_targets (ns_names ++ [t]) rest
      | None => None
      end
  end.

(** Step 2 of the body: the loop over [response.additional] (lines
    78-82).  Only the type of an RRset is tested, never its owner name. *)
Fixpoint glue_addresses (new_ns : list string) (sec : list rrset)
  : option (list string) :=
  match sec with
  | [] => Some new_ns
  | add :: rest =>
      if N.eqb (rdtype add) rdatatype.A then
        match append_addresses new_ns (items add) with
        | Some new_ns' => glue_addresses new_ns' rest
        | None => None
        end
      else glue_addresses new_ns rest
  end.

(** Step 3 of the body: the loop over [response.authority] (lines
    96-100). *)
Fixpoint authority_names (ns_names : list string) (sec : list rrset)
  : option (list string) :=
  match sec with
  | [] => Some ns_names
  | auth :: rest =>
      if N.eqb (rdtype auth) rdatatype.NS then
        match append_targets ns_names (items auth) with
        | Some ns_names' => authority_names ns_names' rest
        | None => None
        end
      else authority_names ns_names rest
  end.

(** How an iteration of [while True] ends: the function returns, or the
    loop goes round again with [nameservers] bound to the given cell
    (rebound by [nameservers = new_ns], or the same as before). *)
Inductive control : Type :=
| Return (ans : rrset)
| Continue (nameservers : ref).

(** ** resolve *)

Section Resolver.

Variable env : world.

(** [random.choice(nameservers)] (line 46): IndexError on an empty list. *)
Definition random_choice (nameservers : ref) : M string :=
  fun s =>
    let pool := heap s nameservers in
    match nth_error pool (rand env (clock s) mod length pool) with
    | Some ns => (Done ns, s)
    | None => (Raise IndexError, s)
    end.

(** [make_query] and [dns.query.udp] (lines 50-51): the datagram is
    observed together with the pool and the path of the calling frame, the
    clock advances, and the network answers or the call raises. *)
Definition send_query (nameservers visited : ref)
           (domain : string) (qtype : N) (ns : string) : M response :=
  fun s =>
    let s' := {| heap := heap s; next := next s; clock := S (clock s);
                 trace := Query (heap s nameservers) ns (heap s visited)
                                domain qtype :: trace s |} in
    match udp env (clock s) ns domain qtype with
    | Reply r => (Done r, s')
    | Fail e => (Raise e, s')
    end.

(** The recursive calls go through [self], which [resolve] below ties to
    itself with less fuel. *)
Variable self : string -> N -> M rrset.

(** Step 1, [for ans in response.answer] (lines 60-67): [Some ans] when
    the function returns from inside the loop, [None] when the loop runs to
    its end.  The type test comes first and the CNAME test second, record
    by record. *)
Fixpoint scan_answer (qtype : N) (visited : ref) (sec : list rrset)
  : M (option rrset) :=
  match sec with
  | [] => ret None
  | ans :: rest =>
      if N.eqb (rdtype ans) qtype then
        path <- read visited ;;
        print (PrintPath path) ;;;
        ret (Some ans)
      else if N.eqb (rdtype ans) rdatatype.CNAME then
        item <- or_raise IndexError (nth_error (items ans) 0) ;;
        cname <- or_raise AttributeError (target_of item) ;;
        print (PrintCname cname) ;;;
        r <- self cname qtype ;;
        ret (Some r)
      else scan_answer qtype visited rest
  end.

(** [for ns_name in ns_names] (lines 104-108): one nested call per
    hostname, inside the [try] of the caller; [if ns_ans] is the truth value
    of the RRset. *)
Fixpoint resolve_ns_names (new_ns : list string) (ns_names : list string)
  : M (list string) :=
  match ns_names with
  | [] => ret new_ns
  | ns_name :: rest =>
      ns_ans <- self ns_name rdatatype.A ;;
      new_ns' <- (if is_empty (items ns_ans) then ret new_ns
                  else or_raise AttributeError
                                (append_addresses new_ns (items ns_ans))) ;;
      resolve_ns_names new_ns' rest
  end.

(** Steps 2 and 3 (lines 78-111).  [new_ns] and [ns_names] are local lists
    that nothing else refers to while they are filled: they are values here
    and become a cell of the store when [nameservers] is bound to them.
    Falling out of step 3 with nothing gathered leaves [nameservers] as it
    is. *)
Definition referral (nameservers : ref) (response : response) : M control :=
  new_ns <- or_raise AttributeError
                     (glue_addresses [] (additional response)) ;;
  if negb (is_empty new_ns) then
    nameservers' <- new_list new_ns ;;
    ret (Continue nameservers')
  else
    ns_names <- or_raise AttributeError
                         (authority_names [] (authority response)) ;;
    new_ns <- resolve_ns_names [] ns_names ;;
    if negb (is_empty new_ns) then
      nameservers' <- new_list new_ns ;;
      ret (Continue nameservers')
    else ret (Continue nameservers).

(** The body of [try] once the response is there (lines 59-111). *)
Definition interpret (qtype : N) (nameservers visited : ref)
           (response : response) : M control :=
  hit <- (if is_empty (answer response) then ret None
          else scan_answer qtype visited (answer response)) ;;
  match hit with
  | Some ans => ret (Return ans)
  | None => referral nameservers response
  end.

(** The body of [try] (lines 50-111). *)
Definition try_body (domain : string) (qtype : N)
           (nameservers visited : ref) (ns : string) : M control :=
  response <- send_query nameservers visited domain qtype ns ;;
  interpret qtype nameservers visited response.

(** The two [except] clauses (lines 116-121): they differ in what they
    print.  A [remove] that raises leaves the function. *)
Definition handler (nameservers : ref) (ns : string) (e : exn) : M control :=
  match e with
  | Timeout => print (PrintTimeout ns)
  | _ => print (PrintError e)
  end ;;;
  list_remove nameservers ns ;;;
  ret (Continue nameservers).

(** One iteration of [while True] (lines 43-121).  The emptiness test, the
    pick and the append are outside the [try]. *)
Definition iteration (domain : string) (qtype : N)
           (nameservers visited : ref) : M control :=
  pool <- read nameservers ;;
  if is_empty pool then raise NoMoreNameservers
  else
    ns <- random_choice nameservers ;;
    list_append visited ns ;;;
    try_except (try_body domain qtype nameservers visited ns)
               (handler nameservers ns).

(** [while True], at most [n] times round. *)
Fixpoint loop (n : nat) (domain : string) (qtype : N)
         (nameservers visited : ref) : M rrset :=
  match n with
  | 0 => out_of_fuel
  | S n' =>
      c <- iteration domain qtype nameservers visited ;;
      match c with
      | Return ans => ret ans
      | Continue nameservers' => loop n' domain qtype nameservers' visited
      end
  end.

(** The function's prologue (lines 39-40) and its loop. *)
Definition resolve_body (n : nat) (domain : string) (qtype : N) : M rrset :=
  nameservers <- list_copy ROOT_SERVERS_ref ;;
  visited <- new_list [] ;;
  loop n domain qtype nameservers visited.

End Resolver.

(** [resolve(domain, qtype)]: [fuel] bounds both the depth of the nested
    calls and the number of iterations of each call's loop. *)
Fixpoint resolve (env : world) (fuel : nat) (domain : string) (qtype : N)
  : M rrset :=
  match fuel with
  | 0 => out_of_fuel
  | S fuel' => resolve_body env (resolve env fuel') fuel' domain qtype
  end.

(** ** Reasoning about computations *)

(** [sat m s Q]: running [m] from [s] ends in an outcome and a state that
    satisfy [Q]. *)
Definition sat {T} (m : M T) (s : state)
           (Q : outcome T -> state -> Prop) : Prop :=
  Q (fst (m s)) (snd (m s)).

(** A datagram is well-founded when its destination was in the pool. *)
Definition query_ok (e : event) : Prop :=
  match e with
  | Query pool ns _ _ _ => pool <> [] /\ In ns pool
  | _ => True
  end.

(** [ext b s s']: from [s] to [s'] the store only grew, no cell below [b]
    changed, the clock did not go back and the trace was extended by
    well-founded events. *)
Record ext (b : ref) (s s' : state) : Prop := Ext {
  ext_next : next s <= next s';
  ext_heap : forall l, l < b -> heap s' l = heap s l;
  ext_clock : clock s <= clock s';
  ext_trace : exists new, trace s' = new ++ trace s /\ Forall query_ok new
}.

(** What a call of [resolve] for type [q] guarantees to its caller. *)
Definition call_post (q : N) (s : state) (r : outcome rrset) (s' : state)
  : Prop :=
  ext (next s) s s' /\
  match r with
  | Done ans => rdtype ans = q
  | Raise e => e = NoMoreNameservers
  | OutOfFuel => True
  end.

Definition call_ok (f : string -> N -> M rrset) : Prop :=
  forall d q s, sat (f d q) s (call_post q s).

(** The cells of a frame: both allocated, both the frame's own (not below
    [b], the allocation mark at the call), and distinct. *)
Definition frame_ok (b nameservers visited : ref) (s : state) : Prop :=
  b <= nameservers /\ nameservers < next s /\
  b <= visited /\ visited < next s /\
  nameservers <> visited.

(** The glue of a referral, as a function of the additional section. *)
Definition addresses (its : list rdata) : list string :=
  flat_map (fun item => match item with Address a => [a] | _ => [] end) its.

Definition additional_A_addresses (sec : list rrset) : list string :=
  flat_map (fun add => if N.eqb (rdtype add) rdatatype.A
                       then addresses (items add) else []) sec.

(** dnspython's typing of RRsets: the rdatas of an A RRset carry an address,
    those of an NS or CNAME RRset a target, and no RRset of these types is
    empty. *)
Definition has_address (item : rdata) : bool :=
  match item with Address _ => true | _ => false end.

Definition has_target (item : rdata) : bool :=
  match item with Target _ => true | _ => false end.

Definition well_typed (rr : rrset) : bool :=
  if N.eqb (rdtype rr) rdatatype.A then
    forallb has_address (items rr) && negb (is_empty (items rr))
  else if N.eqb (rdtype rr) rdatatype.NS || N.eqb (rdtype rr) rdatatype.CNAME
  then forallb has_target (items rr) && negb (is_empty (items rr))
  else true.

(** A record the answer scan acts on: of the requested type, or a CNAME. *)
Definition relevant (qtype : N) (ans : rrset) : bool :=
  N.eqb (rdtype ans) qtype || N.eqb (rdtype ans) rdatatype.CNAME.

(** The store after [visited.append(ns)] and the datagram to [ns]. *)
Definition queried (s : state) (nameservers visited : ref)
           (domain : string) (qtype : N) (ns : string) : state :=
  {| heap := fun l => if Nat.eqb l visited then heap s visited ++ [ns]
                      else heap s l;
     next := next s;
     clock := S (clock s);
     trace := Query (if Nat.eqb nameservers visited
                     then heap s visited ++ [ns] else heap s nameservers)
                    ns (heap s visited ++ [ns]) domain qtype :: trace s |}.

(** The state the handler leaves. *)
Definition handled (s : state) (nameservers : ref) (ns : string) (e : exn)
           (pool' : list string) : state :=
  {| heap := fun l => if Nat.eqb l nameservers then pool' else heap s l;
     next := next s;
     clock := clock s;
     trace := match e with
              | Timeout => PrintTimeout ns
              | _ => PrintError e
              end :: trace s |}.


(** [random.choice] as a function of the pool and the draw. *)
Definition chosen (env : world) (s : state) (nameservers : ref)
  : option string :=
  nth_error (heap s nameservers)
            (rand env (clock s) mod length (heap s nameservers)).

(** Records for building sample responses. *)
Definition A_rrset (n : string) (addrs : list string) : rrset :=
  RRset n rdatatype.A (map Address addrs).
Definition NS_rrset (n : string) (targets : list string) : rrset :=
  RRset n rdatatype.NS (map Target targets).
Definition CNAME_rrset (n : string) (t : string) : rrset :=
  RRset n rdatatype.CNAME [Target t].

(** ** Sample networks and stores *)

(** No server ever answers. *)
Definition dead_world : world :=
  World (fun _ => 0) (fun _ _ _ _ => Fail Timeout).

(** Every server answers with three empty sections. *)
Definition mute_world : world :=
  World (fun _ => 0) (fun _ _ _ _ => Reply (Response [] [] [])).

(** "example.com" is referred to two nameservers by hostname only; the
    address of "y.ns" can be found, nobody answers for "x.ns". *)
Definition referral_world : world :=
  World (fun _ => 0)
        (fun _ _ d _ =>
           if String.eqb d "example.com" then
             Reply (Response [] [] [NS_rrset "com" ["y.ns"; "x.ns"]])
           else if String.eqb d "y.ns" then
             Reply (Response [A_rrset "y.ns" ["10.0.0.1"]] [] [])
           else Fail Timeout).

(** "a.example" is an alias of "b.example"; the answer for the alias also
    carries an address record, as answers to aliased names do. *)
Definition alias_world : world :=
  World (fun _ => 0)
        (fun _ _ d _ =>
           if String.eqb d "a.example" then
             Reply (Response [CNAME_rrset "a.example" "b.example";
                              A_rrset "b.example" ["1.2.3.4"]] [] [])
           else if String.eqb d "b.example" then
             Reply (Response [A_rrset "b.example" ["5.6.7.8"]] [] [])
           else Fail Timeout).

(** As [referral_world], with "y.ns" the only nameserver. *)
Definition delegation_world : world :=
  World (fun _ => 0)
        (fun _ _ d _ =>
           if String.eqb d "example.com" then
             Reply (Response [] [] [NS_rrset "com" ["y.ns"]])
           else if String.eqb d "y.ns" then
             Reply (Response [A_rrset "y.ns" ["10.0.0.1"]] [] [])
           else Fail Timeout).

(** An answer with the address record first and a CNAME record after. *)
Definition answer_world : world :=
  World (fun _ => 0)
        (fun _ _ _ _ =>
           Reply (Response [A_rrset "a.example" ["1.2.3.4"];
                            CNAME_rrset "a.example" "b.example"] [] [])).



(** The store right after the prologue of a call entered in [s]: the pool
    is the new cell [next s], a copy of the root table, and the path the new
    cell [S (next s)]. *)
Definition prologue (s : state) : state :=
  snd (new_list [] (snd (new_list (heap s ROOT_SERVERS_ref) s))).

(** The store of the first call after loading: pool in cell 1, path in
    cell 2. *)
Definition entered : state := prologue module_loaded.


(** ** The entry point *)

(** What the [__main__] block prints after [resolve] has returned. *)
Inductive final_line : Type :=
| FinalAnswerHeader
| FinalAnswer (answer : rrset).

(** The [__main__] block (lines 125-129), given the line that [input()]
    reads: [resolve(domain)] leaves [qtype] to its default, type A; the two
    [print]s come after the call, so an exception of the call skips them. *)
Definition main (env : world) (fuel : nat) (domain : string)
  : M (list final_line) :=
  answer <- resolve env fuel domain rdatatype.A ;;
  ret [FinalAnswerHeader; FinalAnswer answer].

(** ** More vocabulary for the proofs *)

(** What a datagram of a call for type [q] asks, and on which path: the
    type is [q] or A, and the path ends with the server it goes to. *)
Definition asks (q : N) (e : event) : Prop :=
  match e with
  | Query _ ns path _ q' =>
      (q' = q \/ q' = rdatatype.A) /\ exists pre, path = pre ++ [ns]
  | _ => True
  end.

(** [grows q s s']: the trace of [s'] is the one of [s] with events in front
    that all satisfy [asks q]. *)
Definition grows (q : N) (s s' : state) : Prop :=
  exists new, trace s' = new ++ trace s /\ Forall (asks q) new.

(** [answered q s]: the last thing that happened is the print of a path,
    and the one before it the query of type [q] on that very path. *)
Definition answered (q : N) (s : state) : Prop :=
  exists pool ns pre d rest,
    trace s = PrintPath (pre ++ [ns])
                        :: Query pool ns (pre ++ [ns]) d q :: rest.

Definition call_post2 (q : N) (s : state) (r : outcome rrset) (s' : state)
  : Prop :=
  grows q s s' /\
  match r with Done _ => answered q s' | _ => True end.

Definition call_ok2 (f : string -> N -> M rrset) : Prop :=
  forall d q s, sat (f d q) s (call_post2 q s).

(** A reply that decides nothing: no record of the requested type and no
    CNAME in the answer section, no address in the additional section, no
    nameserver in the authority section. *)
Definition useless (q : N) (r : response) : Prop :=
  existsb (relevant q) (answer r) = false /\
  glue_addresses [] (additional r) = Some [] /\
  authority_names [] (authority r) = Some [].

(** Two nameserver hostnames that both resolve, the second one to two
    addresses. *)
Definition two_ns_world : world :=
  World (fun _ => 0)
        (fun _ _ d _ =>
           if String.eqb d "y.ns" then
             Reply (Response [A_rrset "y.ns" ["10.0.0.1"]] [] [])
           else if String.eqb d "z.ns" then
             Reply (Response [A_rrset "z.ns" ["10.0.0.2"; "10.0.0.3"]] [] [])
           else Fail Timeout).

(** An authoritative "no such name": nothing but an SOA record (type 6) in
    the authority section. *)
Definition nxdomain_world : world :=
  World (fun _ => 0)
        (fun _ _ _ _ =>
           Reply (Response [] [] [RRset "example.com" 6%N [Opaque]])).

(** ** Basic facts *)

Lemma sat_bind T U (m : M T) (k : T -> M U) s
      (R : outcome T -> state -> Prop) (Q : outcome U -> state -> Prop) :
  sat m s R ->
  (forall v s', R (Done v) s' -> sat (k v) s' Q) ->
  (forall e s', R (Raise e) s' -> Q (Raise e) s') ->
  (forall s', R OutOfFuel s' -> Q OutOfFuel s') ->
  sat (bind m k) s Q.
Proof.
  unfold sat, bind. intros Hm Hd Hr Ho.
  destruct (m s) as [[v|e|] s']; simpl in *; auto.
Qed.

Lemma sat_try T (m : M T) (h : exn -> M T) s
      (R Q : outcome T -> state -> Prop) :
  sat m s R ->
  (forall v s', R (Done v) s' -> Q (Done v) s') ->
  (forall e s', R (Raise e) s' -> sat (h e) s' Q) ->
  (forall s', R OutOfFuel s' -> Q OutOfFuel s') ->
  sat (try_except m h) s Q.
Proof.
  unfold sat, try_except. intros Hm Hd Hr Ho.
  destruct (m s) as [[v|e|] s']; simpl in *; auto.
Qed.

Lemma sat_weaken T (m : M T) s (R Q : outcome T -> state -> Prop) :
  sat m s R -> (forall r s', R r s' -> Q r s') -> sat m s Q.
Proof. unfold sat. auto. Qed.

Lemma bind_done T U (m : M T) (k : T -> M U) s v s' :
  m s = (Done v, s') -> bind m k s = k v s'.
Proof. intros H. unfold bind. rewrite H. reflexivity. Qed.

Lemma bind_raise T U (m : M T) (k : T -> M U) s e s' :
  m s = (Raise e, s') -> bind m k s = (Raise e, s').
Proof. intros H. unfold bind. rewrite H. reflexivity. Qed.

Lemma resolve_unfold env n d q s :
  resolve env (S n) d q s =
  loop env (resolve env n) n d q (next s) (S (next s)) (prologue s).
Proof. reflexivity. Qed.

Lemma prologue_pool s : heap (prologue s) (next s) = heap s ROOT_SERVERS_ref.
Proof.
  cbn. destruct (Nat.eqb_spec (next s) (S (next s))); [lia|].
  rewrite Nat.eqb_refl. reflexivity.
Qed.

Lemma prologue_path s : heap (prologue s) (S (next s)) = [].
Proof. cbn. rewrite Nat.eqb_refl. reflexivity. Qed.

Lemma prologue_next s : next (prologue s) = S (S (next s)).
Proof. reflexivity. Qed.

Lemma prologue_old s l : l < next s -> heap (prologue s) l = heap s l.
Proof.
  intros Hl. cbn.
  destruct (Nat.eqb_spec l (S (next s))); [lia|].
  destruct (Nat.eqb_spec l (next s)); [lia | reflexivity].
Qed.

Lemma prologue_trace s : trace (prologue s) = trace s.
Proof. reflexivity. Qed.

Lemma sat_bind_or_raise T U e (o : option T) (k : T -> M U) s
      (Q : outcome U -> state -> Prop) :
  match o with Some v => sat (k v) s Q | None => Q (Raise e) s end ->
  sat (bind (or_raise e o) k) s Q.
Proof. destruct o; auto. Qed.

Lemma ext_refl b s : ext b s s.
Proof.
  constructor; auto. exists []. split; auto.
Qed.

Lemma ext_trans b s1 s2 s3 : ext b s1 s2 -> ext b s2 s3 -> ext b s1 s3.
Proof.
  intros [n1 h1 c1 (t1 & e1 & f1)] [n2 h2 c2 (t2 & e2 & f2)].
  constructor.
  - lia.
  - intros l Hl. rewrite h2, h1; auto.
  - lia.
  - exists (t2 ++ t1). split.
    + rewrite e2, e1, app_assoc. reflexivity.
    + apply Forall_app. split; assumption.
Qed.

Lemma ext_weaken b b' s s' : b' <= b -> ext b s s' -> ext b' s s'.
Proof.
  intros Hb [n h c t]. constructor; auto.
  intros l Hl. apply h. lia.
Qed.

Lemma ext_print b s e : query_ok e -> ext b s (snd (print e s)).
Proof.
  intros He. constructor; simpl; auto.
  exists [e]. split; auto.
Qed.

Lemma ext_new_list s xs : ext (next s) s (snd (new_list xs s)).
Proof.
  constructor; simpl; auto.
  - intros l Hl. destruct (Nat.eqb_spec l (next s)); [lia | reflexivity].
  - exists []. split; auto.
Qed.

Lemma ext_write b r xs s : b <= r -> ext b s (snd (write r xs s)).
Proof.
  intros Hr. constructor; simpl; auto.
  - intros l Hl. destruct (Nat.eqb_spec l r); [lia | reflexivity].
  - exists []. split; auto.
Qed.

Lemma remove_first_In x xs : In x xs -> exists ys, remove_first x xs = Some ys.
Proof.
  induction xs as [|y ys IH]; simpl; [tauto|].
  intros [->|Hin].
  - rewrite String.eqb_refl. eauto.
  - destruct (String.eqb x y); eauto.
    destruct (IH Hin) as [zs ->]. eauto.
Qed.

Lemma remove_first_length x xs ys :
  remove_first x xs = Some ys -> length xs = S (length ys).
Proof.
  revert ys. induction xs as [|y xs IH]; simpl; intros ys H; [discriminate|].
  destruct (String.eqb x y).
  - injection H as <-. reflexivity.
  - destruct (remove_first x xs) as [zs|]; [|discriminate].
    injection H as <-. simpl. f_equal. auto.
Qed.

Lemma remove_first_incl x xs ys :
  remove_first x xs = Some ys -> incl ys xs.
Proof.
  revert ys. induction xs as [|y xs IH]; simpl; intros ys H; [discriminate|].
  destruct (String.eqb x y).
  - injection H as <-. apply incl_tl, incl_refl.
  - destruct (remove_first x xs) as [zs|]; [|discriminate].
    injection H as <-. apply incl_cons; [left; reflexivity|].
    apply incl_tl. auto.
Qed.

Lemma choice_nonempty (xs : list string) k :
  xs <> [] -> exists x, nth_error xs (k mod length xs) = Some x /\ In x xs.
Proof.
  intros Hne.
  destruct (nth_error xs (k mod length xs)) as [x|] eqn:E.
  - exists x. split; [reflexivity|]. eapply nth_error_In; eauto.
  - apply nth_error_None in E.
    assert (length xs <> 0) by (destruct xs; simpl; [tauto | lia]).
    pose proof (Nat.mod_upper_bound k (length xs) H). lia.
Qed.

(** ** What every iteration preserves *)

Section Invariants.

Variable env : world.
Variable self : string -> N -> M rrset.
Hypothesis self_ok : call_ok self.

Lemma scan_answer_sat q visited sec s :
  sat (scan_answer self q visited sec) s
      (fun r s' =>
         ext (next s) s s' /\
         match r with Done (Some ans) => rdtype ans = q | _ => True end).
Proof.
  induction sec as [|ans rest IH]; simpl.
  - split; [apply ext_refl | exact I].
  - destruct (N.eqb_spec (rdtype ans) q) as [Hq|Hq].
    + unfold sat, bind, read, print, ret; simpl. split; [|assumption].
      apply (ext_print (next s) s (PrintPath (heap s visited)) I).
    + destruct (N.eqb (rdtype ans) rdatatype.CNAME); [|exact IH].
      unfold sat.
      destruct (items ans) as [|item its];
        [split; [apply ext_refl | exact I]|].
      destruct item as [a|cname|];
        try (split; [apply ext_refl | exact I]).
      cbv [bind ret or_raise raise print nth_error target_of].
      pose proof (ext_print (next s) s (PrintCname cname) I) as Hp.
      pose proof (self_ok cname q (snd (print (PrintCname cname) s))) as Hc.
      unfold sat, call_post, print in Hc. cbn [fst snd next print] in *.
      destruct (self cname q _) as [[v|e|] s']; cbn [fst snd next] in *;
        destruct Hc as [He Hv];
        (split; [eapply ext_trans; [exact Hp | exact He] | auto]).
Qed.

Lemma resolve_ns_names_sat ns_names : forall new_ns s,
  sat (resolve_ns_names self new_ns ns_names) s
      (fun _ s' => ext (next s) s s').
Proof.
  induction ns_names as [|h rest IH]; intros new_ns s; simpl.
  - apply ext_refl.
  - eapply sat_bind; [apply (self_ok h rdatatype.A s) | | |].
    + intros ans s1 [He _].
      assert (Hrest : forall acc, sat (resolve_ns_names self acc rest) s1
                                      (fun _ s' => ext (next s) s s')).
      { intros acc. eapply sat_weaken; [apply IH|].
        intros r s' He'. eapply ext_trans; [exact He|].
        eapply ext_weaken; [|exact He']. apply (ext_next He). }
      destruct (is_empty (items ans)).
      * apply Hrest.
      * destruct (append_addresses new_ns (items ans)) as [acc|].
        -- apply Hrest.
        -- exact He.
    + intros e s' [He _]. exact He.
    + intros s' [He _]. exact He.
Qed.

(** Steps 1 to 3 only allocate and call [resolve]: nothing that existed
    is touched, and a rebound pool is a new cell. *)
Lemma interpret_sat q nameservers visited resp s :
  sat (interpret self q nameservers visited resp) s
      (fun r s' =>
         ext (next s) s s' /\
         match r with
         | Done (Return ans) => rdtype ans = q
         | Done (Continue l) =>
             l = nameservers \/ (next s <= l /\ l < next s')
         | _ => True
         end).
Proof.
  assert (Hnew : forall xs s1,
             ext (next s) s s1 ->
             sat (nameservers' <- new_list xs ;; ret (Continue nameservers'))
                 s1
                 (fun r s' =>
                    ext (next s) s s' /\
                    match r with
                    | Done (Return ans) => rdtype ans = q
                    | Done (Continue l) =>
                        l = nameservers \/ (next s <= l /\ l < next s')
                    | _ => True
                    end)).
  { intros xs s1 He. unfold sat, bind, ret; simpl. split.
    - eapply ext_trans; [exact He|].
      eapply ext_weaken; [|apply ext_new_list]. apply (ext_next He).
    - right. pose proof (ext_next He). lia. }
  unfold interpret.
  eapply sat_bind
    with (R := fun r s' =>
                 ext (next s) s s' /\
                 match r with Done (Some ans) => rdtype ans = q
                         | _ => True end).
  - destruct (is_empty (answer resp)).
    + split; [apply ext_refl | exact I].
    + apply scan_answer_sat.
  - intros [ans|] s1 [He Hans].
    + split; assumption.
    + unfold referral. apply sat_bind_or_raise.
      destruct (glue_addresses [] (additional resp)) as [new_ns|];
        [|split; [exact He | exact I]].
      destruct (is_empty new_ns); cbn [negb]; [|apply Hnew; exact He].
      apply sat_bind_or_raise.
      destruct (authority_names [] (authority resp)) as [ns_names|];
        [|split; [exact He | exact I]].
      assert (Hup : forall s2, ext (next s1) s1 s2 -> ext (next s) s s2).
      { intros s2 He2. eapply ext_trans; [exact He|].
        eapply ext_weaken; [|exact He2]. apply (ext_next He). }
      eapply sat_bind; [apply resolve_ns_names_sat | | |].
      * intros xs s2 He2.
        destruct (is_empty xs); cbn [negb].
        -- split; [auto | left; reflexivity].
        -- apply Hnew; auto.
      * intros e s2 He2. split; [auto | exact I].
      * intros s2 He2. split; [auto | exact I].
  - intros e s' [He _]. split; [exact He | exact I].
  - intros s' [He _]. split; [exact He | exact I].
Qed.

(** An iteration on a non-empty pool, unfolded up to the network's
    reaction. *)
Lemma iteration_unfold d q nameservers visited s ns :
  heap s nameservers <> [] ->
  chosen env s nameservers = Some ns ->
  iteration env self d q nameservers visited s =
  match udp env (clock s) ns d q with
  | Reply r =>
      try_except (interpret self q nameservers visited r)
                 (handler nameservers ns)
                 (queried s nameservers visited d q ns)
  | Fail e => handler nameservers ns e (queried s nameservers visited d q ns)
  end.
Proof.
  intros Hne Hch. unfold chosen in Hch.
  unfold iteration, try_body, try_except.
  unfold bind at 1. unfold read at 1. cbn iota beta.
  destruct (heap s nameservers) as [|x xs] eqn:Hpool; [congruence|].
  cbn [is_empty].
  unfold bind at 1. unfold random_choice at 1. cbn zeta. rewrite Hpool, Hch.
  cbn iota beta.
  unfold bind at 1. unfold list_append at 1.
  unfold bind at 1. unfold read at 1. cbn iota beta.
  unfold write at 1. cbn iota beta.
  unfold bind at 1. unfold send_query at 1.
  cbn [heap next clock trace]. rewrite Nat.eqb_refl.
  unfold queried. rewrite Hpool.
  destruct (udp env (clock s) ns d q) as [r|e]; reflexivity.
Qed.

Lemma handler_sat b nameservers ns e s :
  b <= nameservers ->
  In ns (heap s nameservers) ->
  sat (handler nameservers ns e) s
      (fun r s' =>
         r = Done (Continue nameservers) /\ ext b s s' /\
         remove_first ns (heap s nameservers) = Some (heap s' nameservers)).
Proof.
  intros Hb Hin.
  destruct (remove_first_In _ _ Hin) as [ys Hys].
  set (ev := match e with Timeout => PrintTimeout ns | _ => PrintError e end).
  assert (Hev : query_ok ev) by (destruct e; exact I).
  assert (Hrun :
            handler nameservers ns e s =
            (Done (Continue nameservers),
             snd (write nameservers ys (snd (print ev s))))).
  { unfold handler, list_remove, bind, read, print, ret.
    destruct e; cbn [fst snd heap]; rewrite Hys; reflexivity. }
  unfold sat. rewrite Hrun. cbn [fst snd]. split; [reflexivity|]. split.
  - eapply ext_trans; [apply ext_print; exact Hev|].
    apply ext_write. exact Hb.
  - cbn [write print snd heap]. rewrite Nat.eqb_refl. exact Hys.
Qed.

Lemma queried_ext b s nameservers visited d q ns :
  b <= visited -> nameservers <> visited -> In ns (heap s nameservers) ->
  ext b s (queried s nameservers visited d q ns).
Proof.
  intros Hb Hne Hin. constructor; cbn [queried heap next clock trace].
  - lia.
  - intros l Hl. destruct (Nat.eqb_spec l visited); [lia | reflexivity].
  - lia.
  - exists [Query (heap s nameservers) ns (heap s visited ++ [ns]) d q].
    split.
    + destruct (Nat.eqb_spec nameservers visited); [contradiction|].
      reflexivity.
    + constructor; [|constructor]. split; [|exact Hin].
      intros E. rewrite E in Hin. exact Hin.
Qed.

(** The loop invariant: the frame's cells stay its own, cells below the
    frame never change, and only exhaustion escapes. *)
Lemma iteration_sat b d q nameservers visited s :
  frame_ok b nameservers visited s ->
  sat (iteration env self d q nameservers visited) s
      (fun r s' =>
         ext b s s' /\
         match r with
         | Done (Return ans) => rdtype ans = q
         | Done (Continue l) => frame_ok b l visited s'
         | Raise e => e = NoMoreNameservers
         | OutOfFuel => True
         end).
Proof.
  intros (Hbn & Hn & Hbv & Hv & Hnv).
  destruct (heap s nameservers) as [|x xs] eqn:Hpool.
  - unfold sat, iteration, bind, read. rewrite Hpool. cbn.
    split; [apply ext_refl | reflexivity].
  - assert (Hne : heap s nameservers <> []) by (rewrite Hpool; discriminate).
    destruct (choice_nonempty (rand env (clock s)) Hne) as (ns & Hch & Hin).
    unfold sat. rewrite (@iteration_unfold d q nameservers visited s ns Hne Hch).
    set (s1 := queried s nameservers visited d q ns).
    assert (He1 : ext b s s1) by (apply queried_ext; assumption).
    assert (Hpool1 : heap s1 nameservers = heap s nameservers).
    { unfold s1, queried; cbn [heap].
      destruct (Nat.eqb_spec nameservers visited); [contradiction|].
      reflexivity. }
    assert (Hnext1 : next s1 = next s) by reflexivity.
    assert (Hh : forall e s2,
               ext (next s1) s1 s2 ->
               sat (handler nameservers ns e) s2
                   (fun r s' =>
                      ext b s s' /\
                      match r with
                      | Done (Return ans) => rdtype ans = q
                      | Done (Continue l) => frame_ok b l visited s'
                      | Raise e => e = NoMoreNameservers
                      | OutOfFuel => True
                      end)).
    { intros e s2 He2.
      eapply sat_weaken; [apply (@handler_sat b nameservers ns e s2)|].
      - exact Hbn.
      - rewrite (ext_heap He2), Hpool1; [exact Hin | lia].
      - intros r s' (-> & He3 & _).
        assert (He : ext b s s').
        { eapply ext_trans; [exact He1|].
          eapply ext_trans; [|exact He3].
          eapply ext_weaken; [|exact He2]. lia. }
        split; [exact He|].
        pose proof (ext_next He). repeat split; try assumption; lia. }
    destruct (udp env (clock s) ns d q) as [r|e].
    + apply sat_try
        with (R := fun r0 s' =>
                     ext (next s1) s1 s' /\
                     match r0 with
                     | Done (Return ans) => rdtype ans = q
                     | Done (Continue l) =>
                         l = nameservers \/ (next s1 <= l /\ l < next s')
                     | _ => True
                     end).
      * apply interpret_sat.
      * intros c s' [He2 Hc].
        assert (He : ext b s s').
        { eapply ext_trans; [exact He1|].
          eapply ext_weaken; [|exact He2]. lia. }
        split; [exact He|].
        destruct c as [ans|l]; [exact Hc|].
        pose proof (ext_next He2).
        destruct Hc as [->|[Hl1 Hl2]]; repeat split; try assumption; lia.
      * intros e s' [He2 _]. apply Hh. exact He2.
      * intros s' [He2 _]. split; [|exact I].
        eapply ext_trans; [exact He1|].
        eapply ext_weaken; [|exact He2]. lia.
    + apply Hh. apply ext_refl.
Qed.

Lemma loop_sat b d q n : forall nameservers visited s,
  frame_ok b nameservers visited s ->
  sat (loop env self n d q nameservers visited) s
      (fun r s' =>
         ext b s s' /\
         match r with
         | Done ans => rdtype ans = q
         | Raise e => e = NoMoreNameservers
         | OutOfFuel => True
         end).
Proof.
  induction n as [|n IH]; intros nameservers visited s Hf; cbn [loop].
  - split; [apply ext_refl | exact I].
  - eapply sat_bind; [apply (@iteration_sat b d q nameservers visited s Hf) | | |].
    + intros [ans|l] s1 [He Hc].
      * split; assumption.
      * eapply sat_weaken; [apply (IH l visited s1 Hc)|].
        intros r s' [He' Hr]. split; [|exact Hr].
        eapply ext_trans; eassumption.
    + intros e s' [He Hr]. split; assumption.
    + intros s' [He Hr]. split; assumption.
Qed.

Lemma resolve_body_ok n : call_ok (resolve_body env self n).
Proof.
  intros d q s. unfold resolve_body, list_copy.
  unfold sat, bind at 1 2 3. unfold read at 1. cbn iota beta.
  unfold new_list at 1 2. cbn iota beta. cbn [next heap clock trace].
  set (s2 := {| heap := _; next := S (S (next s)) |}).
  assert (He : ext (next s) s s2).
  { constructor; cbn; auto.
    - intros l Hl.
      destruct (Nat.eqb_spec l (S (next s))); [lia|].
      destruct (Nat.eqb_spec l (next s)); [lia | reflexivity].
    - exists []. split; auto. }
  assert (Hf : frame_ok (next s) (next s) (S (next s)) s2).
  { unfold frame_ok; cbn. lia. }
  pose proof (@loop_sat (next s) d q n (next s) (S (next s)) s2 Hf) as Hl. unfold sat in Hl.
  destruct Hl as [He' Hr]. split; [|exact Hr].
  eapply ext_trans; eassumption.
Qed.

End Invariants.

(** Every call of [resolve], at every fuel, keeps its promise. *)
Lemma resolve_ok env fuel : call_ok (resolve env fuel).
Proof.
  induction fuel as [|fuel IH].
  - intros d q s. split; [apply ext_refl | exact I].
  - cbn [resolve]. apply resolve_body_ok. exact IH.
Qed.

(** ** The steps of the body, one by one *)

Lemma queried_path s nameservers visited d q ns :
  heap (queried s nameservers visited d q ns) visited = heap s visited ++ [ns].
Proof. cbn [queried heap]. rewrite Nat.eqb_refl. reflexivity. Qed.

Lemma queried_other s nameservers visited d q ns l :
  l <> visited -> heap (queried s nameservers visited d q ns) l = heap s l.
Proof.
  intros Hl. cbn [queried heap].
  destruct (Nat.eqb_spec l visited); [contradiction | reflexivity].
Qed.

Lemma queried_trace s nameservers visited d q ns :
  nameservers <> visited ->
  trace (queried s nameservers visited d q ns) =
  Query (heap s nameservers) ns (heap s visited ++ [ns]) d q :: trace s.
Proof.
  intros Hl. cbn [queried trace].
  destruct (Nat.eqb_spec nameservers visited); [contradiction | reflexivity].
Qed.

Lemma append_addresses_typed its : forall acc,
  forallb has_address its = true ->
  append_addresses acc its = Some (acc ++ addresses its).
Proof.
  induction its as [|item rest IH]; intros acc; cbn [append_addresses forallb].
  - intros _. cbn. rewrite app_nil_r. reflexivity.
  - destruct item as [a| |]; cbn [has_address address_of andb];
      try discriminate.
    intros H. rewrite (IH _ H), <- app_assoc. reflexivity.
Qed.

Lemma glue_addresses_typed sec : forall acc,
  forallb well_typed sec = true ->
  glue_addresses acc sec = Some (acc ++ additional_A_addresses sec).
Proof.
  induction sec as [|add rest IH]; intros acc;
    cbn [glue_addresses additional_A_addresses flat_map forallb].
  - intros _. rewrite app_nil_r. reflexivity.
  - intros H. apply andb_prop in H. destruct H as [Hadd Hrest].
    unfold well_typed in Hadd.
    destruct (N.eqb (rdtype add) rdatatype.A).
    + apply andb_prop in Hadd. destruct Hadd as [Hadd _].
      rewrite (@append_addresses_typed (items add) acc Hadd), (IH _ Hrest), <- app_assoc.
      reflexivity.
    + apply IH. exact Hrest.
Qed.

Section Steps.

Variable env : world.
Variable self : string -> N -> M rrset.

Lemma scan_answer_skip q visited pre rest s :
  existsb (relevant q) pre = false ->
  scan_answer self q visited (pre ++ rest) s =
  scan_answer self q visited rest s.
Proof.
  induction pre as [|ans pre IH]; cbn [app existsb scan_answer];
    [reflexivity|].
  intros H. apply orb_false_elim in H. destruct H as [Hans Hpre].
  unfold relevant in Hans. apply orb_false_elim in Hans.
  destruct Hans as [-> ->]. auto.
Qed.

Lemma scan_answer_miss q visited sec s :
  existsb (relevant q) sec = false ->
  scan_answer self q visited sec s = (Done None, s).
Proof.
  intros H. rewrite <- (app_nil_r sec). rewrite scan_answer_skip; auto.
Qed.

(** Step 1 returns the first record of the requested type when no CNAME
    record comes before it. *)
Lemma interpret_hit q nameservers visited r pre ans post s :
  answer r = pre ++ ans :: post ->
  existsb (relevant q) pre = false ->
  rdtype ans = q ->
  interpret self q nameservers visited r s =
  (Done (Return ans), snd (print (PrintPath (heap s visited)) s)).
Proof.
  intros Hans Hpre Hq. unfold interpret, bind. rewrite Hans.
  replace (is_empty (pre ++ ans :: post)) with false
    by (destruct pre; reflexivity).
  rewrite (@scan_answer_skip q visited pre (ans :: post) s Hpre). cbn [scan_answer].
  rewrite Hq, N.eqb_refl. reflexivity.
Qed.

(** Step 1 chases the first CNAME record when no record of the requested
    type comes before it. *)
Lemma interpret_chase q nameservers visited r pre ans post cname its s :
  answer r = pre ++ ans :: post ->
  existsb (relevant q) pre = false ->
  rdtype ans <> q ->
  rdtype ans = rdatatype.CNAME ->
  items ans = Target cname :: its ->
  interpret self q nameservers visited r s =
  (v <- self cname q ;; ret (Return v))
    (snd (print (PrintCname cname) s)).
Proof.
  intros Hans Hpre Hq Hc Hit. unfold interpret. unfold bind at 1.
  rewrite Hans.
  replace (is_empty (pre ++ ans :: post)) with false
    by (destruct pre; reflexivity).
  rewrite (@scan_answer_skip q visited pre (ans :: post) s Hpre). cbn [scan_answer].
  apply N.eqb_neq in Hq. rewrite Hq, Hc, N.eqb_refl, Hit.
  cbv [bind or_raise ret nth_error target_of print snd].
  destruct (self cname q _) as [[v|e|] s']; reflexivity.
Qed.

Lemma interpret_referral q nameservers visited r s :
  existsb (relevant q) (answer r) = false ->
  interpret self q nameservers visited r s = referral self nameservers r s.
Proof.
  intros H. unfold interpret, bind.
  destruct (is_empty (answer r)); [reflexivity|].
  rewrite (@scan_answer_miss q visited (answer r) s H). reflexivity.
Qed.

(** Step 2 on glue. *)
Lemma referral_glue nameservers r addrs s :
  glue_addresses [] (additional r) = Some addrs ->
  addrs <> [] ->
  referral self nameservers r s =
  (Done (Continue (next s)), snd (new_list addrs s)).
Proof.
  intros Hg Hne. unfold referral. rewrite Hg.
  destruct addrs as [|a addrs]; [congruence|]. reflexivity.
Qed.

(** Step 3 when there is no glue. *)
Lemma referral_authority nameservers r ns_names s :
  glue_addresses [] (additional r) = Some [] ->
  authority_names [] (authority r) = Some ns_names ->
  referral self nameservers r s =
  (new_ns <- resolve_ns_names self [] ns_names ;;
   if negb (is_empty new_ns)
   then nameservers' <- new_list new_ns ;; ret (Continue nameservers')
   else ret (Continue nameservers)) s.
Proof.
  intros Hg Ha. unfold referral. rewrite Hg, Ha. reflexivity.
Qed.

(** The hostnames are resolved in order; the first failure ends the
    loop. *)
Lemma resolve_ns_names_app before : forall acc rest s,
  resolve_ns_names self acc (before ++ rest) s =
  match resolve_ns_names self acc before s with
  | (Done acc', s') => resolve_ns_names self acc' rest s'
  | (Raise e, s') => (Raise e, s')
  | (OutOfFuel, s') => (OutOfFuel, s')
  end.
Proof.
  induction before as [|h before IH]; intros acc rest s;
    cbn [app resolve_ns_names]; [reflexivity|].
  unfold bind at 1 3.
  destruct (self h rdatatype.A s) as [[ans|e|] s1]; try reflexivity.
  unfold bind at 1 2.
  destruct (is_empty (items ans)); cbn [ret].
  - apply IH.
  - destruct (append_addresses acc (items ans)) as [acc'|];
      cbn [or_raise ret raise]; [apply IH | reflexivity].
Qed.

Lemma resolve_ns_names_fail acc x rest e s s' :
  self x rdatatype.A s = (Raise e, s') ->
  resolve_ns_names self acc (x :: rest) s = (Raise e, s').
Proof.
  intros H. cbn [resolve_ns_names]. unfold bind at 1. rewrite H. reflexivity.
Qed.

End Steps.

(** ** Failed queries *)

Lemma remove_first_count x xs ys :
  remove_first x xs = Some ys ->
  forall y, count_occ string_dec ys y =
            if String.eqb y x then pred (count_occ string_dec xs y)
            else count_occ string_dec xs y.
Proof.
  revert ys. induction xs as [|z xs IH]; cbn [remove_first]; intros ys H y;
    [discriminate|].
  destruct (String.eqb_spec x z) as [<-|Hxz].
  - injection H as <-. cbn [count_occ].
    destruct (string_dec x y) as [->|Hxy].
    + rewrite String.eqb_refl. reflexivity.
    + destruct (String.eqb_spec y x); [congruence | reflexivity].
  - destruct (remove_first x xs) as [zs|]; [|discriminate].
    injection H as <-. cbn [count_occ]. rewrite (IH zs eq_refl y).
    destruct (string_dec z y) as [->|Hzy]; [|reflexivity].
    destruct (String.eqb_spec y x); [congruence | reflexivity].
Qed.

Lemma remove_first_NoDup x xs ys :
  remove_first x xs = Some ys -> NoDup xs -> ~ In x ys.
Proof.
  intros H Hnd Hin.
  pose proof (@remove_first_count _ _ _ H x) as Hc.
  rewrite String.eqb_refl in Hc.
  apply (count_occ_In string_dec) in Hin.
  assert (count_occ string_dec xs x <= 1)
    by (apply (proj1 (NoDup_count_occ string_dec xs) Hnd)).
  lia.
Qed.

Lemma handler_run nameservers ns e s pool' :
  remove_first ns (heap s nameservers) = Some pool' ->
  handler nameservers ns e s =
  (Done (Continue nameservers), handled s nameservers ns e pool').
Proof.
  intros H. unfold handler, list_remove, bind, read, print, ret, handled.
  destruct e; cbn [fst snd heap]; rewrite H; reflexivity.
Qed.

Lemma iteration_fail env self d q nameservers visited s ns e pool' :
  nameservers <> visited ->
  chosen env s nameservers = Some ns ->
  udp env (clock s) ns d q = Fail e ->
  remove_first ns (heap s nameservers) = Some pool' ->
  iteration env self d q nameservers visited s =
  (Done (Continue nameservers),
   handled (queried s nameservers visited d q ns) nameservers ns e pool').
Proof.
  intros Hnv Hch Hudp Hrm.
  assert (Hne : heap s nameservers <> []).
  { intros E. rewrite E in Hrm. discriminate. }
  rewrite (@iteration_unfold env self d q nameservers visited s ns Hne Hch).
  rewrite Hudp. apply handler_run.
  rewrite queried_other; assumption.
Qed.

Lemma loop_exhausts env self d q visited : forall k nameservers s n,
  nameservers <> visited ->
  length (heap s nameservers) = k -> k < n ->
  (forall t ns, In ns (heap s nameservers) ->
                exists e, udp env t ns d q = Fail e) ->
  fst (loop env self n d q nameservers visited s) = Raise NoMoreNameservers /\
  heap (snd (loop env self n d q nameservers visited s)) nameservers = [].
Proof.
  induction k as [|k IH]; intros nameservers s n Hnv Hlen Hn Hfail;
    (destruct n as [|n]; [lia|]); cbn [loop].
  - apply length_zero_iff_nil in Hlen.
    assert (Hit : iteration env self d q nameservers visited s =
                  (Raise NoMoreNameservers, s)).
    { unfold iteration, bind, read. rewrite Hlen. reflexivity. }
    erewrite bind_raise by exact Hit. cbn [fst snd]. auto.
  - assert (Hne : heap s nameservers <> []).
    { intros E. rewrite E in Hlen. discriminate. }
    destruct (choice_nonempty (rand env (clock s)) Hne) as (ns & Hch & Hin).
    destruct (Hfail (clock s) ns Hin) as [e He].
    destruct (remove_first_In _ _ Hin) as [pool' Hrm].
    erewrite bind_done
      by exact (@iteration_fail env self d q nameservers visited s
                                ns e pool' Hnv Hch He Hrm).
    set (s' := handled _ nameservers ns e pool').
    assert (Hpool : heap s' nameservers = pool').
    { unfold s', handled; cbn [heap]. rewrite Nat.eqb_refl. reflexivity. }
    apply IH.
    + exact Hnv.
    + rewrite Hpool. apply remove_first_length in Hrm. lia.
    + lia.
    + intros t ns' Hin'. apply (Hfail t). rewrite Hpool in Hin'.
      eapply remove_first_incl; eassumption.
Qed.

(** C3: a query that fails with any exception costs the pool exactly the
    candidate that was asked, one entry of the list, and the loop goes on
    with the same pool cell; and when every server of the root set fails for
    the question, the call ends with the exhaustion exception and its pool,
    the cell allocated at entry, is empty. *)
Theorem C3_failed_candidate_removed_and_exhaustion :
  (forall env n d q nameservers visited s ns e,
      nameservers <> visited ->
      heap s nameservers <> [] ->
      chosen env s nameservers = Some ns ->
      udp env (clock s) ns d q = Fail e ->
      exists s',
        iteration env (resolve env n) d q nameservers visited s =
        (Done (Continue nameservers), s') /\
        remove_first ns (heap s nameservers) = Some (heap s' nameservers) /\
        S (length (heap s' nameservers)) = length (heap s nameservers) /\
        (forall x, count_occ string_dec (heap s' nameservers) x =
                   if String.eqb x ns
                   then pred (count_occ string_dec (heap s nameservers) x)
                   else count_occ string_dec (heap s nameservers) x) /\
        (NoDup (heap s nameservers) -> ~ In ns (heap s' nameservers)) /\
        (forall l, l <> nameservers -> l <> visited -> heap s' l = heap s l))
  /\
  (forall env n k d q nameservers visited s,
      nameservers <> visited ->
      (forall t ns, In ns (heap s nameservers) ->
                    exists e, udp env t ns d q = Fail e) ->
      length (heap s nameservers) < k ->
      fst (loop env (resolve env n) k d q nameservers visited s)
      = Raise NoMoreNameservers /\
      heap (snd (loop env (resolve env n) k d q nameservers visited s))
           nameservers = [])
  /\
  (forall env fuel d q s,
      (forall t ns, In ns (heap s ROOT_SERVERS_ref) ->
                    exists e, udp env t ns d q = Fail e) ->
      length (heap s ROOT_SERVERS_ref) + 2 <= fuel ->
      fst (resolve env fuel d q s) = Raise NoMoreNameservers /\
      heap (snd (resolve env fuel d q s)) (next s) = []).
Proof.
  split; [|split].
  - intros env n d q nameservers visited s ns e Hnv Hne Hch Hudp.
    assert (Hin : In ns (heap s nameservers))
      by (eapply nth_error_In; exact Hch).
    destruct (remove_first_In _ _ Hin) as [pool' Hrm].
    exists (handled (queried s nameservers visited d q ns) nameservers ns e
                    pool').
    assert (Hpool : heap (handled (queried s nameservers visited d q ns)
                                  nameservers ns e pool') nameservers = pool').
    { cbn [handled heap]. rewrite Nat.eqb_refl. reflexivity. }
    rewrite Hpool. repeat split.
    + apply iteration_fail; assumption.
    + exact Hrm.
    + symmetry. apply (@remove_first_length _ _ _ Hrm).
    + apply (@remove_first_count _ _ _ Hrm).
    + apply (@remove_first_NoDup _ _ _ Hrm).
    + intros l Hl1 Hl2. cbn [handled heap].
      destruct (Nat.eqb_spec l nameservers); [contradiction|].
      apply queried_other. exact Hl2.
  - intros env n k d q nameservers visited s Hnv Hfail Hk.
    apply (@loop_exhausts env (resolve env n) d q visited
                          (length (heap s nameservers)));
      auto.
  - intros env fuel d q s Hfail Hfuel.
    destruct fuel as [|fuel]; [lia|].
    rewrite resolve_unfold.
    apply (@loop_exhausts env (resolve env fuel) d q (S (next s))
                          (length (heap s ROOT_SERVERS_ref))).
    + lia.
    + rewrite prologue_pool. reflexivity.
    + lia.
    + intros t ns Hin. rewrite prologue_pool in Hin. apply Hfail. exact Hin.
Qed.

(** The first part of C3 on a dead network, from the store of a fresh
    call; the second part from the loaded module. *)
Lemma C3_witness :
  (1 <> 2 /\
   heap entered 1 <> [] /\
   chosen dead_world entered 1 = Some "198.41.0.4" /\
   udp dead_world (clock entered) "198.41.0.4" "example.com" rdatatype.A
   = Fail Timeout /\
   exists s',
     iteration dead_world (resolve dead_world 3) "example.com" rdatatype.A
               1 2 entered = (Done (Continue 1), s') /\
     remove_first "198.41.0.4" (heap entered 1) = Some (heap s' 1) /\
     S (length (heap s' 1)) = length (heap entered 1) /\
     (forall x, count_occ string_dec (heap s' 1) x =
                if String.eqb x "198.41.0.4"
                then pred (count_occ string_dec (heap entered 1) x)
                else count_occ string_dec (heap entered 1) x) /\
     (NoDup (heap entered 1) -> ~ In "198.41.0.4" (heap s' 1)) /\
     (forall l, l <> 1 -> l <> 2 -> heap s' l = heap entered l))
  /\
  (length (heap entered 1) < 14 /\
   fst (loop dead_world (resolve dead_world 3) 14 "example.com" rdatatype.A
             1 2 entered) = Raise NoMoreNameservers /\
   heap (snd (loop dead_world (resolve dead_world 3) 14 "example.com"
                   rdatatype.A 1 2 entered)) 1 = [])
  /\
  (length (heap module_loaded ROOT_SERVERS_ref) + 2 <= 15 /\
   fst (resolve dead_world 15 "example.com" rdatatype.A module_loaded)
   = Raise NoMoreNameservers /\
   heap (snd (resolve dead_world 15 "example.com" rdatatype.A module_loaded))
        (next module_loaded) = []).
Proof.
  destruct C3_failed_candidate_removed_and_exhaustion as (Hone & Hpool & Hall).
  split; [|split].
  - assert (H1 : 1 <> 2) by discriminate.
    assert (H2 : heap entered 1 <> []) by (vm_compute; discriminate).
    assert (H3 : chosen dead_world entered 1 = Some "198.41.0.4")
      by reflexivity.
    assert (H4 : udp dead_world (clock entered) "198.41.0.4" "example.com"
                     rdatatype.A = Fail Timeout) by reflexivity.
    repeat (split; [assumption|]).
    exact (Hone dead_world 3 "example.com" rdatatype.A 1 2 entered
                "198.41.0.4" Timeout H1 H2 H3 H4).
  - assert (H1 : length (heap entered 1) < 14) by (vm_compute; lia).
    split; [exact H1|].
    apply Hpool; [discriminate | | exact H1].
    intros t ns _. exists Timeout. reflexivity.
  - assert (H1 : length (heap module_loaded ROOT_SERVERS_ref) + 2 <= 15)
      by (vm_compute; lia).
    split; [exact H1|].
    apply Hall; [|exact H1].
    intros t ns _. exists Timeout. reflexivity.
Defined.

(** ** Responses that carry nothing *)

Lemma iteration_useless env self d q nameservers visited s ns r :
  nameservers <> visited ->
  chosen env s nameservers = Some ns ->
  udp env (clock s) ns d q = Reply r ->
  existsb (relevant q) (answer r) = false ->
  glue_addresses [] (additional r) = Some [] ->
  authority_names [] (authority r) = Some [] ->
  iteration env self d q nameservers visited s =
  (Done (Continue nameservers), queried s nameservers visited d q ns).
Proof.
  intros Hnv Hch Hudp Hans Hglue Hauth.
  assert (Hne : heap s nameservers <> []).
  { unfold chosen in Hch. intros E. rewrite E in Hch.
    destruct (rand env (clock s) mod _); discriminate. }
  rewrite (@iteration_unfold env self d q nameservers visited s ns Hne Hch).
  rewrite Hudp. unfold try_except.
  rewrite (@interpret_referral self q nameservers visited r _ Hans).
  rewrite (@referral_authority self nameservers r [] _ Hglue Hauth).
  reflexivity.
Qed.

Lemma loop_stalls env self d q visited :
  (forall t ns, exists r,
      udp env t ns d q = Reply r /\
      existsb (relevant q) (answer r) = false /\
      glue_addresses [] (additional r) = Some [] /\
      authority_names [] (authority r) = Some []) ->
  forall n nameservers s,
    nameservers <> visited ->
    heap s nameservers <> [] ->
    fst (loop env self n d q nameservers visited s) = OutOfFuel /\
    heap (snd (loop env self n d q nameservers visited s)) nameservers
    = heap s nameservers.
Proof.
  intros Hmute. induction n as [|n IH]; intros nameservers s Hnv Hne;
    cbn [loop].
  - split; reflexivity.
  - destruct (choice_nonempty (rand env (clock s)) Hne) as (ns & Hch & Hin).
    destruct (Hmute (clock s) ns) as (r & Hudp & Hans & Hglue & Hauth).
    erewrite bind_done
      by exact (@iteration_useless env self d q nameservers visited s ns r
                                   Hnv Hch Hudp Hans Hglue Hauth).
    assert (Hpool : heap (queried s nameservers visited d q ns) nameservers
                    = heap s nameservers)
      by (apply queried_other; exact Hnv).
    rewrite <- Hpool. apply IH; [exact Hnv|]. rewrite Hpool. exact Hne.
Qed.

(** C1, on the code: a response with three empty sections leaves the pool
    as it was, the same cell with the same thirteen entries, and the loop
    goes round again; on a network that only sends such responses the call
    never returns and never raises, whatever the fuel. *)
Theorem C1_empty_response_leaves_pool_unchanged :
  forall fuel,
    iteration mute_world (resolve mute_world fuel) "example.com" rdatatype.A
              1 2 entered
    = (Done (Continue 1),
       queried entered 1 2 "example.com" rdatatype.A "198.41.0.4") /\
    heap (queried entered 1 2 "example.com" rdatatype.A "198.41.0.4") 1
    = ROOT_SERVERS /\
    fst (resolve mute_world (S fuel) "example.com" rdatatype.A module_loaded)
    = OutOfFuel /\
    heap (snd (resolve mute_world (S fuel) "example.com" rdatatype.A
                       module_loaded)) 1
    = ROOT_SERVERS.
Proof.
  intros fuel. split; [|split].
  - apply iteration_useless with (r := Response [] [] []);
      solve [discriminate | reflexivity].
  - reflexivity.
  - rewrite resolve_unfold.
    change (heap _ 1 = ROOT_SERVERS)
      with (heap (snd (loop mute_world (resolve mute_world fuel) fuel
                            "example.com" rdatatype.A 1 2 entered)) 1
            = heap entered 1).
    apply loop_stalls.
    + intros t ns. exists (Response [] [] []). repeat split.
    + discriminate.
    + vm_compute. discriminate.
Qed.

(** ** Referrals by hostname *)

Lemma pair_eta T U (p : T * U) x : fst p = x -> p = (x, snd p).
Proof. intros <-. destruct p; reflexivity. Qed.

(** C2, on the code: the root server refers "example.com" to "y.ns" and
    "x.ns"; the nested resolution of "y.ns" returns 10.0.0.1, that of
    "x.ns" ends in the exhaustion exception.  Nothing catches it at the
    hostname: it reaches the handler of the enclosing call, which removes
    the root server that sent the referral.  The next pool is the old one
    without that server, and 10.0.0.1, which had been found, is not in
    it. *)
Theorem C2_failed_hostname_discards_the_resolved_addresses :
  udp referral_world 0 "198.41.0.4" "example.com" rdatatype.A
  = Reply (Response [] [] [NS_rrset "com" ["y.ns"; "x.ns"]]) /\
  fst (resolve referral_world 20 "y.ns" rdatatype.A
               (queried entered 1 2 "example.com" rdatatype.A "198.41.0.4"))
  = Done (A_rrset "y.ns" ["10.0.0.1"]) /\
  fst (resolve referral_world 20 "x.ns" rdatatype.A
               (snd (resolve referral_world 20 "y.ns" rdatatype.A
                             (queried entered 1 2 "example.com" rdatatype.A
                                      "198.41.0.4"))))
  = Raise NoMoreNameservers /\
  fst (iteration referral_world (resolve referral_world 20) "example.com"
                 rdatatype.A 1 2 entered)
  = Done (Continue 1) /\
  heap (snd (iteration referral_world (resolve referral_world 20)
                       "example.com" rdatatype.A 1 2 entered)) 1
  = tl ROOT_SERVERS /\
  heap (snd (iteration referral_world (resolve referral_world 20)
                       "example.com" rdatatype.A 1 2 entered)) 1
  <> ["10.0.0.1"] /\
  ~ In "10.0.0.1"
       (heap (snd (iteration referral_world (resolve referral_world 20)
                             "example.com" rdatatype.A 1 2 entered)) 1).
Proof.
  assert (Hpool : heap (snd (iteration referral_world
                                       (resolve referral_world 20)
                                       "example.com" rdatatype.A 1 2 entered))
                       1 = tl ROOT_SERVERS) by (vm_compute; reflexivity).
  rewrite Hpool.
  repeat split; try (vm_compute; reflexivity).
  - discriminate.
  - cbn. intros H. repeat (destruct H as [H|H]; [discriminate H|]). exact H.
Qed.

(** The same on any network.  The hostnames of an authority-only referral
    are resolved in order inside the enclosing [try].  When the nested
    resolution of one of them raises, the exception reaches the handler of
    the enclosing call, which removes the candidate just asked from the
    pool; the addresses gathered before are dropped.  When every nested
    resolution returns and the addresses gathered are not empty, they are
    the next pool, a new cell. *)
Lemma hostname_failure_reaches_the_handler :
  forall env n d q nameservers visited s ns r ns_names,
    nameservers < next s -> nameservers <> visited ->
    chosen env s nameservers = Some ns ->
    udp env (clock s) ns d q = Reply r ->
    existsb (relevant q) (answer r) = false ->
    glue_addresses [] (additional r) = Some [] ->
    authority_names [] (authority r) = Some ns_names ->
    (forall before x after acc e,
        ns_names = before ++ x :: after ->
        fst (resolve_ns_names (resolve env n) [] before
                              (queried s nameservers visited d q ns))
        = Done acc ->
        fst (resolve env n x rdatatype.A
                     (snd (resolve_ns_names (resolve env n) [] before
                             (queried s nameservers visited d q ns))))
        = Raise e ->
        fst (iteration env (resolve env n) d q nameservers visited s)
        = Done (Continue nameservers) /\
        remove_first ns (heap s nameservers)
        = Some (heap (snd (iteration env (resolve env n) d q
                                     nameservers visited s)) nameservers))
    /\
    (forall addrs,
        fst (resolve_ns_names (resolve env n) [] ns_names
                              (queried s nameservers visited d q ns))
        = Done addrs ->
        addrs <> [] ->
        exists nameservers',
          fst (iteration env (resolve env n) d q nameservers visited s)
          = Done (Continue nameservers') /\
          next s <= nameservers' /\
          heap (snd (iteration env (resolve env n) d q nameservers visited s))
               nameservers' = addrs).
Proof.
  intros env n d q nameservers visited s ns r ns_names
         Hn Hnv Hch Hudp Hans Hglue Hauth.
  assert (Hin : In ns (heap s nameservers))
    by (eapply nth_error_In; exact Hch).
  assert (Hne : heap s nameservers <> []).
  { intros E. rewrite E in Hin. exact Hin. }
  set (s1 := queried s nameservers visited d q ns).
  assert (Hit : iteration env (resolve env n) d q nameservers visited s =
                try_except
                  (new_ns <- resolve_ns_names (resolve env n) [] ns_names ;;
                   if negb (is_empty new_ns)
                   then nameservers' <- new_list new_ns ;;
                        ret (Continue nameservers')
                   else ret (Continue nameservers))
                  (handler nameservers ns) s1).
  { rewrite (@iteration_unfold env (resolve env n) d q nameservers visited s
                               ns Hne Hch).
    rewrite Hudp. unfold try_except. fold s1.
    rewrite (@interpret_referral (resolve env n) q nameservers visited r s1
                                 Hans).
    rewrite (@referral_authority (resolve env n) nameservers r ns_names s1
                                 Hglue Hauth).
    reflexivity. }
  split.
  - intros before x after acc e Hsplit Hbefore Hx.
    apply pair_eta in Hbefore. apply pair_eta in Hx.
    set (s2 := snd (resolve_ns_names (resolve env n) [] before s1)) in *.
    set (s3 := snd (resolve env n x rdatatype.A s2)) in *.
    assert (Hg : resolve_ns_names (resolve env n) [] ns_names s1
                 = (Raise e, s3)).
    { rewrite Hsplit, resolve_ns_names_app, Hbefore.
      apply resolve_ns_names_fail. exact Hx. }
    assert (He12 : ext (next s1) s1 s2)
      by (apply (resolve_ns_names_sat (resolve_ok env n) before [] s1)).
    assert (He23 : ext (next s2) s2 s3)
      by (apply (resolve_ok env n x rdatatype.A s2)).
    assert (Hpool : heap s3 nameservers = heap s nameservers).
    { rewrite (ext_heap He23) by (pose proof (ext_next He12); cbn in *; lia).
      rewrite (ext_heap He12) by (cbn; lia).
      apply queried_other. exact Hnv. }
    destruct (remove_first_In _ _ Hin) as [pool' Hrm].
    rewrite Hit. unfold try_except.
    erewrite bind_raise by exact Hg.
    rewrite (@handler_run nameservers ns e s3 pool')
      by (rewrite Hpool; exact Hrm).
    cbn [fst snd handled heap]. rewrite Nat.eqb_refl. auto.
  - intros addrs Hg Hne'. apply pair_eta in Hg.
    set (s2 := snd (resolve_ns_names (resolve env n) [] ns_names s1)) in *.
    assert (He12 : ext (next s1) s1 s2)
      by (apply (resolve_ns_names_sat (resolve_ok env n) ns_names [] s1)).
    exists (next s2). rewrite Hit. unfold try_except.
    erewrite bind_done by exact Hg.
    destruct addrs as [|a addrs]; [congruence|].
    cbn [is_empty negb]. unfold bind, new_list, ret. cbn [fst snd heap].
    rewrite Nat.eqb_refl. pose proof (ext_next He12). cbn in *.
    repeat split; auto.
Qed.

(** ** The answer section *)

Lemma chosen_nonempty env s nameservers ns :
  chosen env s nameservers = Some ns ->
  heap s nameservers <> [] /\ In ns (heap s nameservers).
Proof.
  unfold chosen. intros H. apply nth_error_In in H. split; [|exact H].
  intros E. rewrite E in H. exact H.
Qed.

Lemma iteration_hit env self d q nameservers visited s ns r pre ans post :
  chosen env s nameservers = Some ns ->
  udp env (clock s) ns d q = Reply r ->
  answer r = pre ++ ans :: post ->
  existsb (relevant q) pre = false ->
  rdtype ans = q ->
  iteration env self d q nameservers visited s =
  (Done (Return ans),
   snd (print (PrintPath (heap s visited ++ [ns]))
              (queried s nameservers visited d q ns))).
Proof.
  intros Hch Hudp Hans Hpre Hq.
  destruct (chosen_nonempty _ _ _ Hch) as [Hne _].
  rewrite (@iteration_unfold env self d q nameservers visited s ns Hne Hch).
  rewrite Hudp. unfold try_except.
  rewrite (@interpret_hit self q nameservers visited r pre ans post _
                          Hans Hpre Hq).
  rewrite queried_path. reflexivity.
Qed.

Lemma iteration_chase env self d q nameservers visited s ns r pre ans post
      cname its :
  chosen env s nameservers = Some ns ->
  udp env (clock s) ns d q = Reply r ->
  answer r = pre ++ ans :: post ->
  existsb (relevant q) pre = false ->
  rdtype ans <> q ->
  rdtype ans = rdatatype.CNAME ->
  items ans = Target cname :: its ->
  iteration env self d q nameservers visited s =
  try_except (v <- self cname q ;; ret (Return v))
             (handler nameservers ns)
             (snd (print (PrintCname cname)
                         (queried s nameservers visited d q ns))).
Proof.
  intros Hch Hudp Hans Hpre Hq Hc Hit.
  destruct (chosen_nonempty _ _ _ Hch) as [Hne _].
  rewrite (@iteration_unfold env self d q nameservers visited s ns Hne Hch).
  rewrite Hudp. unfold try_except.
  rewrite (@interpret_chase self q nameservers visited r pre ans post cname
                            its _ Hans Hpre Hq Hc Hit).
  reflexivity.
Qed.

(** C4 as stated fails: the answer for "a.example" holds a CNAME record
    and, after it, a record of the requested type A; [resolve] does not
    return that record but chases the CNAME and returns what the second
    resolution finds. *)
Lemma C4_counterexample :
  udp alias_world 0 "198.41.0.4" "a.example" rdatatype.A
  = Reply (Response [CNAME_rrset "a.example" "b.example";
                     A_rrset "b.example" ["1.2.3.4"]] [] []) /\
  rdtype (A_rrset "b.example" ["1.2.3.4"]) = rdatatype.A /\
  fst (resolve alias_world 20 "a.example" rdatatype.A module_loaded)
  = Done (A_rrset "b.example" ["5.6.7.8"]) /\
  fst (resolve alias_world 20 "a.example" rdatatype.A module_loaded)
  <> Done (A_rrset "b.example" ["1.2.3.4"]) /\
  In (PrintCname "b.example")
     (trace (snd (resolve alias_world 20 "a.example" rdatatype.A
                          module_loaded))) /\
  clock (snd (resolve alias_world 20 "a.example" rdatatype.A module_loaded))
  = 2.
Proof.
  assert (H : fst (resolve alias_world 20 "a.example" rdatatype.A
                           module_loaded)
              = Done (A_rrset "b.example" ["5.6.7.8"]))
    by (vm_compute; reflexivity).
  rewrite H. repeat split; try reflexivity.
  - discriminate.
  - vm_compute. tauto.
Qed.

(** C4, amended: the answer section is scanned in order and the first
    record that is of the requested type or a CNAME decides.  If it is of
    the requested type it is returned, whatever follows it; if it is a CNAME
    (and CNAME was not requested) its target is resolved, whatever follows
    it.  So the chase is taken only when no record of the requested type
    comes before the first CNAME record. *)
Theorem C4_first_relevant_record_decides :
  forall env n d q nameservers visited s ns r pre ans post,
    chosen env s nameservers = Some ns ->
    udp env (clock s) ns d q = Reply r ->
    answer r = pre ++ ans :: post ->
    existsb (relevant q) pre = false ->
    (rdtype ans = q ->
     iteration env (resolve env n) d q nameservers visited s =
     (Done (Return ans),
      snd (print (PrintPath (heap s visited ++ [ns]))
                 (queried s nameservers visited d q ns))))
    /\
    (rdtype ans <> q ->
     rdtype ans = rdatatype.CNAME ->
     forall cname its,
       items ans = Target cname :: its ->
       iteration env (resolve env n) d q nameservers visited s =
       try_except (v <- resolve env n cname q ;; ret (Return v))
                  (handler nameservers ns)
                  (snd (print (PrintCname cname)
                              (queried s nameservers visited d q ns)))).
Proof.
  intros env n d q nameservers visited s ns r pre ans post
         Hch Hudp Hans Hpre.
  split.
  - intros Hq. eapply iteration_hit; eassumption.
  - intros Hq Hc cname its Hit. eapply iteration_chase; eassumption.
Qed.

(** The amended C4 on an answer with the address record first and a CNAME
    after it, and on the answer of the counterexample. *)
Lemma C4_witness :
  iteration answer_world (resolve answer_world 20) "a.example" rdatatype.A
            1 2 entered
  = (Done (Return (A_rrset "a.example" ["1.2.3.4"])),
     snd (print (PrintPath (heap entered 2 ++ ["198.41.0.4"]))
                (queried entered 1 2 "a.example" rdatatype.A "198.41.0.4")))
  /\
  iteration alias_world (resolve alias_world 20) "a.example" rdatatype.A
            1 2 entered
  = try_except (v <- resolve alias_world 20 "b.example" rdatatype.A ;;
                ret (Return v))
               (handler 1 "198.41.0.4")
               (snd (print (PrintCname "b.example")
                           (queried entered 1 2 "a.example" rdatatype.A
                                    "198.41.0.4"))).
Proof.
  split.
  - refine (proj1 (@C4_first_relevant_record_decides
                     answer_world 20 "a.example" rdatatype.A 1 2 entered
                     "198.41.0.4"
                     (Response [A_rrset "a.example" ["1.2.3.4"];
                                CNAME_rrset "a.example" "b.example"] [] [])
                     [] (A_rrset "a.example" ["1.2.3.4"])
                     [CNAME_rrset "a.example" "b.example"] _ _ _ _) _);
      reflexivity.
  - refine (proj2 (@C4_first_relevant_record_decides
                     alias_world 20 "a.example" rdatatype.A 1 2 entered
                     "198.41.0.4"
                     (Response [CNAME_rrset "a.example" "b.example";
                                A_rrset "b.example" ["1.2.3.4"]] [] [])
                     [] (CNAME_rrset "a.example" "b.example")
                     [A_rrset "b.example" ["1.2.3.4"]] _ _ _ _)
                  _ _ "b.example" [] _);
      try reflexivity.
    discriminate.
Defined.

(** ** Where a call sends its first datagram *)





Section FirstQuery.

Variable env : world.
Variable self : string -> N -> M rrset.
Hypothesis self_ok : call_ok self.



End FirstQuery.





(** ** Referrals with glue *)



(** ** The pool is never empty when a server is picked *)

(** C7: with an empty pool the iteration raises the exhaustion exception at
    once, in the state it was entered in: nothing is picked, appended or
    sent, and the loop ends there.  And every datagram of every run, nested
    calls included, went to a member of a pool that was not empty. *)
Theorem C7_queries_need_a_nonempty_pool :
  (forall env n k d q nameservers visited s,
      heap s nameservers = [] ->
      iteration env (resolve env n) d q nameservers visited s
      = (Raise NoMoreNameservers, s) /\
      loop env (resolve env n) (S k) d q nameservers visited s
      = (Raise NoMoreNameservers, s))
  /\
  (forall env fuel d q s,
      exists new,
        trace (snd (resolve env fuel d q s)) = new ++ trace s /\
        Forall query_ok new).
Proof.
  split.
  - intros env n k d q nameservers visited s Hpool.
    assert (Hit : iteration env (resolve env n) d q nameservers visited s
                  = (Raise NoMoreNameservers, s)).
    { unfold iteration, bind, read. rewrite Hpool. reflexivity. }
    split; [exact Hit|].
    cbn [loop]. erewrite bind_raise by exact Hit. reflexivity.
  - intros env fuel d q s.
    destruct (resolve_ok env fuel d q s) as [He _].
    exact (ext_trace He).
Qed.

(** The first part of C7 on a frame whose pool has been emptied. *)
Lemma C7_witness :
  heap (snd (write 1 [] entered)) 1 = [] /\
  iteration dead_world (resolve dead_world 5) "example.com" rdatatype.A 1 2
            (snd (write 1 [] entered))
  = (Raise NoMoreNameservers, snd (write 1 [] entered)) /\
  loop dead_world (resolve dead_world 5) 4 "example.com" rdatatype.A 1 2
       (snd (write 1 [] entered))
  = (Raise NoMoreNameservers, snd (write 1 [] entered)).
Proof.
  split; [reflexivity|].
  apply (proj1 C7_queries_need_a_nonempty_pool
               dead_world 5 3 "example.com" rdatatype.A 1 2
               (snd (write 1 [] entered))).
  reflexivity.
Defined.

(** ** The root table and the frames of other calls *)

(** C8: the root table has thirteen entries; a call of [resolve] changes no
    cell that existed when it was entered, so neither the root table nor the
    pool or path of any other call, the caller's included; its own pool is
    a new cell holding a copy of the root table and its own path a new
    empty cell; and after any call from the loaded module the root table is
    what the module's literal says. *)
Theorem C8_root_table_and_other_frames_untouched :
  length ROOT_SERVERS = 13 /\
  (forall env fuel d q s l,
      l < next s -> heap (snd (resolve env fuel d q s)) l = heap s l) /\
  (forall env n d q s,
      resolve env (S n) d q s
      = loop env (resolve env n) n d q (next s) (S (next s)) (prologue s) /\
      heap (prologue s) (next s) = heap s ROOT_SERVERS_ref /\
      heap (prologue s) (S (next s)) = [] /\
      (forall l, l < next s -> heap (prologue s) l = heap s l)) /\
  (forall env fuel d q,
      heap (snd (resolve env fuel d q module_loaded)) ROOT_SERVERS_ref
      = ROOT_SERVERS).
Proof.
  split; [reflexivity|]. split; [|split].
  - intros env fuel d q s l Hl.
    destruct (resolve_ok env fuel d q s) as [He _].
    apply (ext_heap He). exact Hl.
  - intros env n d q s. split; [apply resolve_unfold|].
    split; [apply prologue_pool|]. split; [apply prologue_path|].
    intros l Hl. apply prologue_old. exact Hl.
  - intros env fuel d q.
    destruct (resolve_ok env fuel d q module_loaded) as [He _].
    rewrite (ext_heap He); [reflexivity|]. unfold ROOT_SERVERS_ref. cbn. lia.
Qed.

(** The frame part of C8: a whole resolution through a referral by
    hostname, nested call included, seen from the cells of a call that was
    already there. *)
Lemma C8_witness :
  heap (snd (resolve delegation_world 20 "example.com" rdatatype.A entered)) 0
  = heap entered 0 /\
  heap (snd (resolve delegation_world 20 "example.com" rdatatype.A entered)) 1
  = heap entered 1 /\
  heap (snd (resolve delegation_world 20 "example.com" rdatatype.A entered)) 2
  = heap entered 2.
Proof.
  destruct C8_root_table_and_other_frames_untouched as (_ & H & _).
  repeat split; apply H; vm_compute; lia.
Defined.

(** ** What a call can end with *)



(** C10: the only exception a call of [resolve] ends with is the
    exhaustion exception, so the [remove] of the handler never raised; and
    in an iteration whose body raises, the pool cell holds at that moment
    what it held when the candidate was picked, the candidate included, so
    that the handler removes it and the loop goes on. *)
Theorem C10_handler_removal_always_succeeds :
  (forall env fuel d q s e,
      fst (resolve env fuel d q s) = Raise e -> e = NoMoreNameservers)
  /\
  (forall env n d q nameservers visited s ns e s2,
      nameservers < next s ->
      nameservers <> visited ->
      chosen env s nameservers = Some ns ->
      try_body env (resolve env n) d q nameservers visited ns
               (snd (list_append visited ns s)) = (Raise e, s2) ->
      heap s2 nameservers = heap s nameservers /\
      In ns (heap s2 nameservers) /\
      exists pool',
        remove_first ns (heap s nameservers) = Some pool' /\
        handler nameservers ns e s2
        = (Done (Continue nameservers), handled s2 nameservers ns e pool')).
Proof.
  split.
  - intros env fuel d q s e H.
    destruct (resolve_ok env fuel d q s) as [_ Hr].
    rewrite H in Hr. exact Hr.
  - intros env n d q nameservers visited s ns e s2 Hn Hnv Hch Hbody.
    destruct (chosen_nonempty _ _ _ Hch) as [_ Hin].
    assert (Hpool : heap s2 nameservers = heap s nameservers).
    { unfold try_body, bind in Hbody. unfold send_query at 1 in Hbody.
      cbn [list_append bind read write fst snd heap next clock trace]
        in Hbody.
      destruct (udp env _ ns d q) as [r|e'].
      - match type of Hbody with
        | interpret ?f ?q ?a ?b ?r ?s1 = _ =>
            pose proof (@interpret_sat f (resolve_ok env n) q a b r s1) as Hi;
            unfold sat in Hi; rewrite Hbody in Hi; cbn [fst snd] in Hi;
            destruct Hi as [He _];
            rewrite (ext_heap He) by (cbn [next]; exact Hn)
        end.
        cbn [heap]. destruct (Nat.eqb_spec nameservers visited);
          [contradiction | reflexivity].
      - injection Hbody as _ <-. cbn [heap].
        destruct (Nat.eqb_spec nameservers visited);
          [contradiction | reflexivity]. }
    split; [exact Hpool|]. split; [rewrite Hpool; exact Hin|].
    destruct (remove_first_In _ _ Hin) as [pool' Hrm].
    exists pool'. split; [exact Hrm|].
    apply handler_run. rewrite Hpool. exact Hrm.
Qed.

(** C10 on the dead network, where the only outcome is exhaustion, and on
    the iteration of [referral_world] whose nested call fails. *)
Lemma C10_witness :
  NoMoreNameservers = NoMoreNameservers
  /\
  (heap (snd (try_body referral_world (resolve referral_world 20)
                       "example.com" rdatatype.A 1 2 "198.41.0.4"
                       (snd (list_append 2 "198.41.0.4" entered)))) 1
   = heap entered 1 /\
   In "198.41.0.4"
      (heap (snd (try_body referral_world (resolve referral_world 20)
                           "example.com" rdatatype.A 1 2 "198.41.0.4"
                           (snd (list_append 2 "198.41.0.4" entered)))) 1) /\
   exists pool',
     remove_first "198.41.0.4" (heap entered 1) = Some pool' /\
     handler 1 "198.41.0.4" NoMoreNameservers
             (snd (try_body referral_world (resolve referral_world 20)
                            "example.com" rdatatype.A 1 2 "198.41.0.4"
                            (snd (list_append 2 "198.41.0.4" entered))))
     = (Done (Continue 1),
        handled (snd (try_body referral_world (resolve referral_world 20)
                               "example.com" rdatatype.A 1 2 "198.41.0.4"
                               (snd (list_append 2 "198.41.0.4" entered))))
                1 "198.41.0.4" NoMoreNameservers pool')).
Proof.
  destruct C10_handler_removal_always_succeeds as [H1 H2].
  split.
  - apply (H1 dead_world 20 "example.com" rdatatype.A module_loaded).
    vm_compute. reflexivity.
  - apply (H2 referral_world 20 "example.com" rdatatype.A 1 2 entered
              "198.41.0.4" NoMoreNameservers).
    + vm_compute. lia.
    + discriminate.
    + reflexivity.
    + apply pair_eta. vm_compute. reflexivity.
Defined.

(** ** What the trace of a call looks like *)

Lemma grows_refl q s : grows q s s.
Proof. exists []. split; [reflexivity | constructor]. Qed.

Lemma grows_trans q s1 s2 s3 : grows q s1 s2 -> grows q s2 s3 -> grows q s1 s3.
Proof.
  intros (n1 & E1 & F1) (n2 & E2 & F2). exists (n2 ++ n1). split.
  - rewrite E2, E1, app_assoc. reflexivity.
  - apply Forall_app. split; assumption.
Qed.

Lemma asks_A q e : asks rdatatype.A e -> asks q e.
Proof.
  destruct e as [pool ns path d q'| | | |]; cbn; auto.
  intros [[->| ->] H]; split; auto.
Qed.

Lemma grows_A q s s' : grows rdatatype.A s s' -> grows q s s'.
Proof.
  intros (new & E & F). exists new. split; [exact E|].
  eapply Forall_impl; [|exact F]. apply asks_A.
Qed.

Lemma grows_event q s s' e : trace s' = e :: trace s -> asks q e -> grows q s s'.
Proof.
  intros E H. exists [e]. split; [exact E|]. constructor; [exact H|constructor].
Qed.

Lemma grows_same q s s' : trace s' = trace s -> grows q s s'.
Proof. intros E. exists []. split; [exact E | constructor]. Qed.

Lemma handler_grows q nameservers ns e s :
  grows q s (snd (handler nameservers ns e s)).
Proof.
  set (ev := match e with Timeout => PrintTimeout ns | _ => PrintError e end).
  apply grows_event with (e := ev).
  - unfold handler, list_remove, bind, read, print, write, raise, ret.
    destruct e; cbn [fst snd heap];
      destruct (remove_first ns (heap s nameservers)); reflexivity.
  - destruct e; exact I.
Qed.

Section Traces.

Variable env : world.
Variable self : string -> N -> M rrset.
Hypothesis self_ok2 : call_ok2 self.

Lemma scan_answer_sat2 q visited sec s pool ns pre d rest :
  trace s = Query pool ns (pre ++ [ns]) d q :: rest ->
  heap s visited = pre ++ [ns] ->
  sat (scan_answer self q visited sec) s
      (fun r s' =>
         grows q s s' /\
         match r with Done (Some _) => answered q s' | _ => True end).
Proof.
  intros Htr Hpath. induction sec as [|ans rest' IH]; cbn [scan_answer].
  - split; [apply grows_refl | exact I].
  - destruct (N.eqb (rdtype ans) q).
    + unfold sat, bind, read, print, ret. cbn [fst snd]. split.
      * apply grows_event with (e := PrintPath (heap s visited));
          [reflexivity | exact I].
      * exists pool, ns, pre, d, rest. cbn [trace].
        rewrite Hpath, Htr. reflexivity.
    + destruct (N.eqb (rdtype ans) rdatatype.CNAME); [|exact IH].
      unfold sat.
      destruct (items ans) as [|item its];
        [split; [apply grows_refl | exact I]|].
      destruct item as [a|cname|];
        try (split; [apply grows_refl | exact I]).
      cbv [bind ret or_raise raise print nth_error target_of].
      assert (Hp : grows q s (snd (print (PrintCname cname) s)))
        by (apply grows_event with (e := PrintCname cname);
            [reflexivity | exact I]).
      pose proof (self_ok2 cname q (snd (print (PrintCname cname) s))) as Hc.
      unfold sat, call_post2, print in Hc. cbn [fst snd print] in *.
      destruct (self cname q _) as [[v|e|] s']; cbn [fst snd] in *;
        destruct Hc as [Hg Hv];
        (split; [eapply grows_trans; [exact Hp | exact Hg] | auto]).
Qed.

Lemma resolve_ns_names_sat2 q ns_names : forall new_ns s,
  sat (resolve_ns_names self new_ns ns_names) s (fun _ s' => grows q s s').
Proof.
  induction ns_names as [|h rest IH]; intros new_ns s;
    cbn [resolve_ns_names].
  - apply grows_refl.
  - eapply sat_bind; [apply (self_ok2 h rdatatype.A s) | | |].
    + intros ans s1 [Hg _]. apply grows_A with (q := q) in Hg.
      assert (Hrest : forall acc, sat (resolve_ns_names self acc rest) s1
                                      (fun _ s' => grows q s s')).
      { intros acc. eapply sat_weaken; [apply IH|].
        intros r s' Hg'. cbv beta in Hg' |- *.
        eapply grows_trans; eassumption. }
      destruct (is_empty (items ans)).
      * apply Hrest.
      * destruct (append_addresses new_ns (items ans)) as [acc|].
        -- apply Hrest.
        -- exact Hg.
    + intros e s' [Hg _]. apply grows_A. exact Hg.
    + intros s' [Hg _]. apply grows_A. exact Hg.
Qed.

Lemma interpret_sat2 q nameservers visited r s pool ns pre d rest :
  trace s = Query pool ns (pre ++ [ns]) d q :: rest ->
  heap s visited = pre ++ [ns] ->
  sat (interpret self q nameservers visited r) s
      (fun c s' =>
         grows q s s' /\
         match c with Done (Return _) => answered q s' | _ => True end).
Proof.
  intros Htr Hpath. unfold interpret.
  eapply sat_bind
    with (R := fun r0 s' =>
                 grows q s s' /\
                 match r0 with Done (Some _) => answered q s' | _ => True end).
  - destruct (is_empty (answer r)).
    + split; [apply grows_refl | exact I].
    + eapply scan_answer_sat2; eassumption.
  - intros [ans|] s1 [Hg Hans].
    + split; assumption.
    + assert (Hnew : forall xs s2,
                 grows q s s2 ->
                 sat (nameservers' <- new_list xs ;;
                      ret (Continue nameservers')) s2
                     (fun c s' =>
                        grows q s s' /\
                        match c with
                        | Done (Return _) => answered q s'
                        | _ => True
                        end)).
      { intros xs s2 Hg2. unfold sat, bind, ret, new_list; cbn [fst snd].
        split; [|exact I]. eapply grows_trans; [exact Hg2|].
        apply grows_same. reflexivity. }
      unfold referral. apply sat_bind_or_raise.
      destruct (glue_addresses [] (additional r)) as [new_ns|];
        [|split; [exact Hg | exact I]].
      destruct (is_empty new_ns); cbn [negb]; [|apply Hnew; exact Hg].
      apply sat_bind_or_raise.
      destruct (authority_names [] (authority r)) as [ns_names|];
        [|split; [exact Hg | exact I]].
      eapply sat_bind; [apply (resolve_ns_names_sat2 q ns_names [] s1) | | |].
      * intros xs s2 Hg2.
        assert (Hg12 : grows q s s2) by (eapply grows_trans; eassumption).
        destruct (is_empty xs); cbn [negb].
        -- split; [exact Hg12 | exact I].
        -- apply Hnew. exact Hg12.
      * intros e s2 Hg2. split; [eapply grows_trans; eassumption | exact I].
      * intros s2 Hg2. split; [eapply grows_trans; eassumption | exact I].
  - intros e s' [Hg _]. split; [exact Hg | exact I].
  - intros s' [Hg _]. split; [exact Hg | exact I].
Qed.

Lemma iteration_sat2 d q nameservers visited s :
  sat (iteration env self d q nameservers visited) s
      (fun c s' =>
         grows q s s' /\
         match c with Done (Return _) => answered q s' | _ => True end).
Proof.
  destruct (heap s nameservers) as [|x xs] eqn:Hpool.
  - unfold sat, iteration, bind, read. rewrite Hpool. cbn.
    split; [apply grows_refl | exact I].
  - assert (Hne : heap s nameservers <> []) by (rewrite Hpool; discriminate).
    destruct (choice_nonempty (rand env (clock s)) Hne) as (ns & Hch & Hin).
    unfold sat.
    rewrite (@iteration_unfold env self d q nameservers visited s ns Hne Hch).
    set (s1 := queried s nameservers visited d q ns).
    assert (Hg1 : grows q s s1).
    { eapply grows_event; [reflexivity|]. cbn. split; [left; reflexivity|].
      exists (heap s visited). reflexivity. }
    assert (Hh : forall e s2,
               grows q s s2 ->
               sat (handler nameservers ns e) s2
                   (fun c s' =>
                      grows q s s' /\
                      match c with
                      | Done (Return _) => answered q s'
                      | _ => True
                      end)).
    { intros e s2 Hg2. unfold sat.
      pose proof (handler_grows q nameservers ns e s2) as Hg3.
      split; [eapply grows_trans; eassumption|].
      unfold handler, list_remove, bind, read, print, write, raise, ret.
      destruct e; cbn [fst snd heap];
        destruct (remove_first ns (heap s2 nameservers)); exact I. }
    destruct (udp env (clock s) ns d q) as [r|e].
    + apply sat_try
        with (R := fun c s' =>
                     grows q s1 s' /\
                     match c with
                     | Done (Return _) => answered q s'
                     | _ => True
                     end).
      * apply interpret_sat2
          with (pool := if Nat.eqb nameservers visited
                        then heap s visited ++ [ns] else heap s nameservers)
               (ns := ns) (pre := heap s visited) (d := d) (rest := trace s).
        -- reflexivity.
        -- apply queried_path.
      * intros c s' [Hg2 Hc]. split; [eapply grows_trans; eassumption|].
        exact Hc.
      * intros e s' [Hg2 _]. apply Hh. eapply grows_trans; eassumption.
      * intros s' [Hg2 _]. split; [eapply grows_trans; eassumption | exact I].
    + apply Hh. exact Hg1.
Qed.

Lemma loop_sat2 d q visited n : forall nameservers s,
  sat (loop env self n d q nameservers visited) s (call_post2 q s).
Proof.
  induction n as [|n IH]; intros nameservers s; cbn [loop].
  - split; [apply grows_refl | exact I].
  - eapply sat_bind; [apply iteration_sat2 | | |].
    + intros [ans|l] s1 [Hg Hc].
      * split; assumption.
      * eapply sat_weaken; [apply (IH l s1)|].
        intros r s' [Hg' Hr]. split; [eapply grows_trans; eassumption|].
        exact Hr.
    + intros e s' [Hg _]. split; [exact Hg | exact I].
    + intros s' [Hg _]. split; [exact Hg | exact I].
Qed.

End Traces.

Lemma resolve_ok2 env fuel : call_ok2 (resolve env fuel).
Proof.
  induction fuel as [|fuel IH]; intros d q s.
  - split; [apply grows_refl | exact I].
  - unfold sat. rewrite resolve_unfold.
    pose proof (@loop_sat2 env (resolve env fuel) IH d q (S (next s)) fuel
                           (next s) (prologue s)) as H.
    unfold sat, call_post2 in H. destruct H as [Hg Hr].
    split; [|exact Hr].
    destruct Hg as (new & E & F). exists new. split; [exact E | exact F].
Qed.

(** X2: when [resolve] returns a record, the last event of the run is the
    print of a path, and the event before it is a query of the requested
    type recorded with that very path: the printed path is not empty and
    ends with the server that query went to. *)
Theorem X2_returns_right_after_printing_the_answering_path :
  forall env fuel d q s ans,
    fst (resolve env fuel d q s) = Done ans ->
    exists pool ns pre d' rest,
      trace (snd (resolve env fuel d q s))
      = PrintPath (pre ++ [ns]) :: Query pool ns (pre ++ [ns]) d' q :: rest.
Proof.
  intros env fuel d q s ans H.
  destruct (resolve_ok2 env fuel d q s) as [_ Hr].
  rewrite H in Hr. exact Hr.
Qed.

(** X2 on the resolution through an alias. *)
Lemma X2_witness :
  exists pool ns pre d' rest,
    trace (snd (resolve alias_world 20 "a.example" rdatatype.A module_loaded))
    = PrintPath (pre ++ [ns])
                :: Query pool ns (pre ++ [ns]) d' rdatatype.A :: rest.
Proof.
  apply (@X2_returns_right_after_printing_the_answering_path
           alias_world 20 "a.example" rdatatype.A module_loaded
           (A_rrset "b.example" ["5.6.7.8"])).
  vm_compute. reflexivity.
Defined.

(** X3: every datagram a call of [resolve] for type [q] sends, nested calls
    included, asks for type [q] or for type A, and the path recorded with it
    ends with the server it goes to. *)
Theorem X3_queries_ask_the_requested_type_or_A :
  forall env fuel d q s,
    exists new,
      trace (snd (resolve env fuel d q s)) = new ++ trace s /\
      Forall (asks q) new.
Proof.
  intros env fuel d q s.
  destruct (resolve_ok2 env fuel d q s) as [Hg _]. exact Hg.
Qed.

(** ** Replies that decide nothing, on any network *)

Lemma loop_stalls_counting env self d q visited :
  (forall t ns, exists r, udp env t ns d q = Reply r /\ useless q r) ->
  forall n nameservers s,
    nameservers <> visited ->
    heap s nameservers <> [] ->
    fst (loop env self n d q nameservers visited s) = OutOfFuel /\
    heap (snd (loop env self n d q nameservers visited s)) nameservers
    = heap s nameservers /\
    clock (snd (loop env self n d q nameservers visited s)) = clock s + n /\
    length (heap (snd (loop env self n d q nameservers visited s)) visited)
    = length (heap s visited) + n.
Proof.
  intros Hmute. induction n as [|n IH]; intros nameservers s Hnv Hne;
    cbn [loop].
  - cbn. repeat split; lia.
  - destruct (choice_nonempty (rand env (clock s)) Hne) as (ns & Hch & Hin).
    destruct (Hmute (clock s) ns) as (r & Hudp & Hans & Hglue & Hauth).
    erewrite bind_done
      by exact (@iteration_useless env self d q nameservers visited s ns r
                                   Hnv Hch Hudp Hans Hglue Hauth).
    set (s1 := queried s nameservers visited d q ns).
    assert (Hpool : heap s1 nameservers = heap s nameservers)
      by (apply queried_other; exact Hnv).
    assert (Hne1 : heap s1 nameservers <> []) by (rewrite Hpool; exact Hne).
    destruct (IH nameservers s1 Hnv Hne1) as (H1 & H2 & H3 & H4).
    rewrite H1, H2, H3, H4, Hpool. unfold s1 at 2. rewrite queried_path.
    rewrite length_app. cbn. repeat split; lia.
Qed.

(** X4: on a network whose replies to a question never carry a record of
    the requested type or a CNAME, an address in the additional section or
    a nameserver in the authority section (an authoritative "no such name"
    is such a reply), [resolve] never returns and never raises: whatever
    the fuel, it is used up, every round of the loop sends one more query,
    and the pool is the root table as it was copied. *)
Theorem X4_undecided_replies_are_asked_for_again_for_ever :
  forall env d q s fuel,
    (forall t ns, exists r, udp env t ns d q = Reply r /\ useless q r) ->
    heap s ROOT_SERVERS_ref <> [] ->
    fst (resolve env (S fuel) d q s) = OutOfFuel /\
    clock (snd (resolve env (S fuel) d q s)) = clock s + fuel /\
    length (heap (snd (resolve env (S fuel) d q s)) (S (next s))) = fuel /\
    heap (snd (resolve env (S fuel) d q s)) (next s)
    = heap s ROOT_SERVERS_ref.
Proof.
  intros env d q s fuel Hmute Hroot. rewrite resolve_unfold.
  assert (Hne : heap (prologue s) (next s) <> [])
    by (rewrite prologue_pool; exact Hroot).
  assert (Hnv : next s <> S (next s)) by lia.
  destruct (@loop_stalls_counting env (resolve env fuel) d q (S (next s))
                                  Hmute fuel (next s) (prologue s) Hnv Hne)
    as (H1 & H2 & H3 & H4).
  rewrite H1, H2, H3, H4, prologue_pool, prologue_path.
  repeat split.
Qed.

(** X4 on the "no such name" reply, which has an SOA record in its
    authority section. *)
Lemma X4_witness :
  fst (resolve nxdomain_world 8 "example.com" rdatatype.A module_loaded)
  = OutOfFuel /\
  clock (snd (resolve nxdomain_world 8 "example.com" rdatatype.A
                      module_loaded)) = clock module_loaded + 7 /\
  length (heap (snd (resolve nxdomain_world 8 "example.com" rdatatype.A
                             module_loaded)) (S (next module_loaded))) = 7 /\
  heap (snd (resolve nxdomain_world 8 "example.com" rdatatype.A
                     module_loaded)) (next module_loaded)
  = heap module_loaded ROOT_SERVERS_ref.
Proof.
  apply X4_undecided_replies_are_asked_for_again_for_ever.
  - intros t ns. eexists. split; [reflexivity|]. repeat split.
  - vm_compute. discriminate.
Defined.

(** ** Every candidate once *)

Lemma remove_first_perm x xs ys :
  remove_first x xs = Some ys -> Permutation xs (x :: ys).
Proof.
  revert ys. induction xs as [|z xs IH]; cbn [remove_first]; intros ys H;
    [discriminate|].
  destruct (String.eqb_spec x z) as [<-|Hxz].
  - injection H as <-. apply Permutation_refl.
  - destruct (remove_first x xs) as [zs|]; [|discriminate].
    injection H as <-.
    eapply Permutation_trans; [|apply perm_swap].
    apply perm_skip. apply IH. reflexivity.
Qed.

Lemma loop_exhausts_path env self d q visited : forall k nameservers s n,
  nameservers <> visited ->
  length (heap s nameservers) = k -> k < n ->
  (forall t ns, In ns (heap s nameservers) ->
                exists e, udp env t ns d q = Fail e) ->
  Permutation (heap (snd (loop env self n d q nameservers visited s)) visited)
              (heap s visited ++ heap s nameservers) /\
  clock (snd (loop env self n d q nameservers visited s)) = clock s + k.
Proof.
  induction k as [|k IH]; intros nameservers s n Hnv Hlen Hn Hfail;
    (destruct n as [|n]; [lia|]); cbn [loop].
  - apply length_zero_iff_nil in Hlen.
    assert (Hit : iteration env self d q nameservers visited s =
                  (Raise NoMoreNameservers, s)).
    { unfold iteration, bind, read. rewrite Hlen. reflexivity. }
    erewrite bind_raise by exact Hit. cbn [fst snd].
    rewrite Hlen, app_nil_r. split; [apply Permutation_refl | lia].
  - assert (Hne : heap s nameservers <> []).
    { intros E. rewrite E in Hlen. discriminate. }
    destruct (choice_nonempty (rand env (clock s)) Hne) as (ns & Hch & Hin).
    destruct (Hfail (clock s) ns Hin) as [e He].
    destruct (remove_first_In _ _ Hin) as [pool' Hrm].
    erewrite bind_done
      by exact (@iteration_fail env self d q nameservers visited s
                                ns e pool' Hnv Hch He Hrm).
    set (s' := handled _ nameservers ns e pool').
    assert (Hpool : heap s' nameservers = pool').
    { unfold s', handled; cbn [heap]. rewrite Nat.eqb_refl. reflexivity. }
    assert (Hpath : heap s' visited = heap s visited ++ [ns]).
    { unfold s', handled; cbn [heap].
      destruct (Nat.eqb_spec visited nameservers); [congruence|].
      apply queried_path. }
    assert (Hclock : clock s' = S (clock s)) by reflexivity.
    destruct (IH nameservers s' n) as [Hperm Hcl].
    + exact Hnv.
    + rewrite Hpool. apply remove_first_length in Hrm. lia.
    + lia.
    + intros t ns' Hin'. apply (Hfail t). rewrite Hpool in Hin'.
      eapply remove_first_incl; eassumption.
    + split; [|lia].
      eapply Permutation_trans; [exact Hperm|].
      rewrite Hpath, Hpool, <- app_assoc. apply Permutation_app_head.
      cbn [app]. apply Permutation_sym. apply remove_first_perm. exact Hrm.
Qed.

(** X5: when every server of the root table fails for the question, the
    call gives up after exactly as many queries as the table has entries,
    and the servers it asked, in the order of its path, are the entries of
    the table, each of them once. *)
Theorem X5_exhaustion_asks_every_root_server_once :
  forall env fuel d q s,
    (forall t ns, In ns (heap s ROOT_SERVERS_ref) ->
                  exists e, udp env t ns d q = Fail e) ->
    length (heap s ROOT_SERVERS_ref) + 2 <= fuel ->
    Permutation (heap (snd (resolve env fuel d q s)) (S (next s)))
                (heap s ROOT_SERVERS_ref) /\
    clock (snd (resolve env fuel d q s))
    = clock s + length (heap s ROOT_SERVERS_ref).
Proof.
  intros env fuel d q s Hfail Hfuel.
  destruct fuel as [|fuel]; [lia|]. rewrite resolve_unfold.
  destruct (@loop_exhausts_path env (resolve env fuel) d q (S (next s))
                                (length (heap s ROOT_SERVERS_ref))
                                (next s) (prologue s) fuel) as [Hperm Hcl].
  - lia.
  - rewrite prologue_pool. reflexivity.
  - lia.
  - intros t ns Hin. rewrite prologue_pool in Hin. apply Hfail. exact Hin.
  - rewrite prologue_path, prologue_pool in Hperm. cbn [app] in Hperm.
    split; [exact Hperm | exact Hcl].
Qed.

(** X5 on the dead network. *)
Lemma X5_witness :
  Permutation (heap (snd (resolve dead_world 15 "example.com" rdatatype.A
                                  module_loaded)) (S (next module_loaded)))
              (heap module_loaded ROOT_SERVERS_ref) /\
  clock (snd (resolve dead_world 15 "example.com" rdatatype.A module_loaded))
  = clock module_loaded + length (heap module_loaded ROOT_SERVERS_ref).
Proof.
  apply X5_exhaustion_asks_every_root_server_once.
  - intros t ns _. exists Timeout. reflexivity.
  - vm_compute. lia.
Defined.

(** ** The addresses gathered for the hostnames of a referral *)

Lemma append_addresses_result its : forall acc r,
  append_addresses acc its = Some r -> r = acc ++ addresses its.
Proof.
  induction its as [|item rest IH]; intros acc r; cbn [append_addresses].
  - intros [= <-]. cbn. rewrite app_nil_r. reflexivity.
  - destruct item as [a| |]; cbn [address_of]; try discriminate.
    intros H. apply IH in H. rewrite H, <- app_assoc. reflexivity.
Qed.

(** X6: when the loop over the hostnames of a referral runs to its end,
    every hostname was resolved by a call of [resolve] for type A that
    returned an A record, and the list gathered is what the loop started
    with followed by the addresses of those records, hostname by hostname
    in the order of the authority section, nothing merged or dropped. *)
Theorem X6_gathered_addresses_follow_the_hostnames :
  forall env n ns_names new_ns s r s',
    resolve_ns_names (resolve env n) new_ns ns_names s = (Done r, s') ->
    exists answers,
      Forall2 (fun ns_name ns_ans =>
                 rdtype ns_ans = rdatatype.A /\
                 exists s1 s2,
                   resolve env n ns_name rdatatype.A s1 = (Done ns_ans, s2))
              ns_names answers /\
      r = new_ns ++ flat_map (fun ns_ans => addresses (items ns_ans)) answers.
Proof.
  intros env n ns_names.
  induction ns_names as [|h rest IH]; intros new_ns s r s';
    cbn [resolve_ns_names].
  - intros [= <- <-]. exists []. split; [constructor|].
    cbn. rewrite app_nil_r. reflexivity.
  - unfold bind at 1.
    destruct (resolve env n h rdatatype.A s) as [[ans|e|] s1] eqn:Hcall;
      try discriminate.
    assert (Hty : rdtype ans = rdatatype.A).
    { destruct (resolve_ok env n h rdatatype.A s) as [_ Hr].
      rewrite Hcall in Hr. exact Hr. }
    assert (Hstep : forall acc,
               resolve_ns_names (resolve env n) acc rest s1 = (Done r, s') ->
               acc = new_ns ++ addresses (items ans) ->
               exists answers,
                 Forall2 (fun ns_name ns_ans =>
                            rdtype ns_ans = rdatatype.A /\
                            exists s2 s3,
                              resolve env n ns_name rdatatype.A s2
                              = (Done ns_ans, s3))
                         (h :: rest) answers /\
                 r = new_ns ++
                     flat_map (fun ns_ans => addresses (items ns_ans))
                              answers).
    { intros acc Hrest Hacc.
      destruct (IH acc s1 r s' Hrest) as (answers & Hall & Hr).
      exists (ans :: answers). split.
      - constructor; [|exact Hall]. split; [exact Hty|].
        exists s, s1. exact Hcall.
      - cbn [flat_map]. rewrite Hr, Hacc, <- app_assoc. reflexivity. }
    unfold bind at 1.
    destruct (items ans) as [|item its] eqn:Hitems; cbn [is_empty ret].
    + intros Hrest. apply (Hstep new_ns Hrest).
      cbn. rewrite app_nil_r. reflexivity.
    + destruct (append_addresses new_ns (item :: its)) as [acc|] eqn:Happ;
        cbn [or_raise ret raise]; [|discriminate].
      intros Hrest. apply (Hstep acc Hrest).
      apply append_addresses_result. exact Happ.
Qed.

(** X6 on two hostnames, the second with two addresses, gathered after an
    address that was already there: the result keeps that address first,
    then the address of "y.ns", then those of "z.ns". *)
Lemma X6_witness :
  resolve_ns_names (resolve two_ns_world 20) ["192.0.2.9"] ["y.ns"; "z.ns"]
                   entered
  = (Done ["192.0.2.9"; "10.0.0.1"; "10.0.0.2"; "10.0.0.3"],
     snd (resolve_ns_names (resolve two_ns_world 20) ["192.0.2.9"]
                           ["y.ns"; "z.ns"] entered))
  /\
  exists answers,
    Forall2 (fun ns_name ns_ans =>
               rdtype ns_ans = rdatatype.A /\
               exists s1 s2,
                 resolve two_ns_world 20 ns_name rdatatype.A s1
                 = (Done ns_ans, s2))
            ["y.ns"; "z.ns"] answers /\
    ["192.0.2.9"; "10.0.0.1"; "10.0.0.2"; "10.0.0.3"]
    = ["192.0.2.9"]
        ++ flat_map (fun ns_ans => addresses (items ns_ans)) answers.
Proof.
  assert (H : resolve_ns_names (resolve two_ns_world 20) ["192.0.2.9"]
                               ["y.ns"; "z.ns"] entered
              = (Done ["192.0.2.9"; "10.0.0.1"; "10.0.0.2"; "10.0.0.3"],
                 snd (resolve_ns_names (resolve two_ns_world 20)
                                       ["192.0.2.9"] ["y.ns"; "z.ns"]
                                       entered)))
    by (apply pair_eta; vm_compute; reflexivity).
  split; [exact H|].
  exact (@X6_gathered_addresses_follow_the_hostnames
           two_ns_world 20 ["y.ns"; "z.ns"] ["192.0.2.9"] entered
           ["192.0.2.9"; "10.0.0.1"; "10.0.0.2"; "10.0.0.3"] _ H).
Defined.

(** ** The entry point *)

Lemma bind_out_of_fuel T U (m : M T) (k : T -> M U) s s' :
  m s = (OutOfFuel, s') -> bind m k s = (OutOfFuel, s').
Proof. intros H. unfold bind. rewrite H. reflexivity. Qed.

(** X7: the [__main__] block ends as its call of [resolve] for type A
    ends, in the store and with the trace that call left.  If the call
    returns, the block prints the header and the record returned, which has
    type A; if the call raises, which it only does on exhaustion, the block
    ends with that exception and prints neither; and while the call goes on
    the block goes on.  All three happen: on replies that decide nothing
    the block never ends, and when every root server fails it ends with the
    exhaustion exception. *)
Theorem X7_main_ends_as_resolve_for_type_A_ends :
  (forall env fuel domain s,
      snd (main env fuel domain s)
      = snd (resolve env fuel domain rdatatype.A s) /\
      match fst (main env fuel domain s) with
      | Done lines =>
          exists answer,
            lines = [FinalAnswerHeader; FinalAnswer answer] /\
            rdtype answer = rdatatype.A /\
            fst (resolve env fuel domain rdatatype.A s) = Done answer
      | Raise e =>
          e = NoMoreNameservers /\
          fst (resolve env fuel domain rdatatype.A s) = Raise e
      | OutOfFuel => fst (resolve env fuel domain rdatatype.A s) = OutOfFuel
      end)
  /\
  (forall env fuel domain s,
      (forall t ns, exists r,
          udp env t ns domain rdatatype.A = Reply r /\
          useless rdatatype.A r) ->
      heap s ROOT_SERVERS_ref <> [] ->
      fst (main env fuel domain s) = OutOfFuel)
  /\
  (forall env fuel domain s,
      (forall t ns, In ns (heap s ROOT_SERVERS_ref) ->
                    exists e, udp env t ns domain rdatatype.A = Fail e) ->
      length (heap s ROOT_SERVERS_ref) + 2 <= fuel ->
      fst (main env fuel domain s) = Raise NoMoreNameservers).
Proof.
  split; [|split].
  - intros env fuel domain s. unfold main, bind, ret.
    destruct (resolve_ok env fuel domain rdatatype.A s) as [_ Hr].
    destruct (resolve env fuel domain rdatatype.A s) as [[ans|e|] s'];
      cbn [fst snd] in *.
    + split; [reflexivity|]. exists ans. auto.
    + split; [reflexivity|]. auto.
    + split; reflexivity.
  - intros env fuel domain s Hmute Hroot.
    assert (H : fst (resolve env fuel domain rdatatype.A s) = OutOfFuel).
    { destruct fuel as [|fuel]; [reflexivity|]. rewrite resolve_unfold.
      apply (@loop_stalls_counting env (resolve env fuel) domain rdatatype.A
                                   (S (next s)) Hmute fuel (next s)
                                   (prologue s)).
      - lia.
      - rewrite prologue_pool. exact Hroot. }
    apply pair_eta in H. unfold main.
    erewrite bind_out_of_fuel by exact H. reflexivity.
  - intros env fuel domain s Hfail Hfuel.
    assert (H : fst (resolve env fuel domain rdatatype.A s)
                = Raise NoMoreNameservers).
    { destruct fuel as [|fuel]; [lia|]. rewrite resolve_unfold.
      apply (@loop_exhausts env (resolve env fuel) domain rdatatype.A
                            (S (next s)) (length (heap s ROOT_SERVERS_ref))).
      - lia.
      - rewrite prologue_pool. reflexivity.
      - lia.
      - intros t ns Hin. rewrite prologue_pool in Hin. apply Hfail.
        exact Hin. }
    apply pair_eta in H. unfold main.
    erewrite bind_raise by exact H. reflexivity.
Qed.

(** X7 on the "no such name" reply, where the block never ends, and on the
    dead network, where it ends with the exhaustion exception. *)
Lemma X7_witness :
  fst (main nxdomain_world 25 "example.com" module_loaded) = OutOfFuel /\
  fst (main dead_world 15 "example.com" module_loaded)
  = Raise NoMoreNameservers.
Proof.
  destruct X7_main_ends_as_resolve_for_type_A_ends as (_ & Hhang & Hfail).
  split.
  - apply Hhang.
    + intros t ns. eexists. split; [reflexivity|]. repeat split.
    + vm_compute. discriminate.
  - apply Hfail.
    + intros t ns _. exists Timeout. reflexivity.
    + vm_compute. lia.
Defined.

(** ** Whole resolutions *)

Lemma iteration_glue env self d q nameservers visited s ns r :
  chosen env s nameservers = Some ns ->
  udp env (clock s) ns d q = Reply r ->
  existsb (relevant q) (answer r) = false ->
  forallb well_typed (additional r) = true ->
  additional_A_addresses (additional r) <> [] ->
  iteration env self d q nameservers visited s
  = (Done (Continue (next s)),
     snd (new_list (additional_A_addresses (additional r))
                   (queried s nameservers visited d q ns))).
Proof.
  intros Hch Hudp Hans Hty Hne.
  destruct (chosen_nonempty _ _ _ Hch) as [Hpool _].
  rewrite (@iteration_unfold env self d q nameservers visited s ns Hpool Hch).
  rewrite Hudp. unfold try_except.
  rewrite (@interpret_referral self q nameservers visited r _ Hans).
  rewrite (@referral_glue self nameservers r
                          (additional_A_addresses (additional r)) _
                          (@glue_addresses_typed (additional r) [] Hty) Hne).
  reflexivity.
Qed.

(** X8: when the root server picked first answers with a record of the
    requested type, and no CNAME record stands before it in the answer
    section, [resolve] returns that record after this one query: the path
    printed holds that server only, and the pool is still the full copy of
    the root table. *)
Theorem X8_answer_from_the_first_root_server :
  forall env n d q s ns r pre ans post,
    nth_error (heap s ROOT_SERVERS_ref)
              (rand env (clock s) mod length (heap s ROOT_SERVERS_ref))
    = Some ns ->
    udp env (clock s) ns d q = Reply r ->
    answer r = pre ++ ans :: post ->
    existsb (relevant q) pre = false ->
    rdtype ans = q ->
    resolve env (S (S n)) d q s
    = (Done ans,
       snd (print (PrintPath [ns])
                  (queried (prologue s) (next s) (S (next s)) d q ns))) /\
    clock (snd (resolve env (S (S n)) d q s)) = S (clock s) /\
    heap (snd (resolve env (S (S n)) d q s)) (next s)
    = heap s ROOT_SERVERS_ref /\
    heap (snd (resolve env (S (S n)) d q s)) (S (next s)) = [ns].
Proof.
  intros env n d q s ns r pre ans post Hch Hudp Hans Hpre Hq.
  assert (Hch' : chosen env (prologue s) (next s) = Some ns).
  { unfold chosen. rewrite prologue_pool. exact Hch. }
  assert (Hrun : resolve env (S (S n)) d q s
                 = (Done ans,
                    snd (print (PrintPath [ns])
                               (queried (prologue s) (next s) (S (next s))
                                        d q ns)))).
  { rewrite resolve_unfold. cbn [loop].
    erewrite bind_done
      by exact (@iteration_hit env (resolve env (S n)) d q (next s)
                               (S (next s)) (prologue s) ns r pre ans post
                               Hch' Hudp Hans Hpre Hq).
    rewrite prologue_path. reflexivity. }
  rewrite Hrun. cbn [snd print heap clock].
  split; [reflexivity|]. split; [reflexivity|]. split.
  - rewrite queried_other by lia. apply prologue_pool.
  - rewrite queried_path, prologue_path. reflexivity.
Qed.

(** X8 on a network whose servers all answer at once. *)
Lemma X8_witness :
  resolve answer_world 2 "a.example" rdatatype.A module_loaded
  = (Done (A_rrset "a.example" ["1.2.3.4"]),
     snd (print (PrintPath ["198.41.0.4"])
                (queried (prologue module_loaded) (next module_loaded)
                         (S (next module_loaded)) "a.example" rdatatype.A
                         "198.41.0.4"))).
Proof.
  apply (@X8_answer_from_the_first_root_server
           answer_world 0 "a.example" rdatatype.A module_loaded "198.41.0.4"
           (Response [A_rrset "a.example" ["1.2.3.4"];
                      CNAME_rrset "a.example" "b.example"] [] [])
           [] (A_rrset "a.example" ["1.2.3.4"])
           [CNAME_rrset "a.example" "b.example"]);
    reflexivity.
Defined.

(** X9: one referral with glue, then the answer.  When the root server
    picked first answers with address records in its additional section and
    neither a record of the requested type nor a CNAME in its answer
    section, and the server then picked among those addresses answers with
    a record of the requested type that no CNAME record and no other record
    of that type precedes in the answer section, [resolve] returns that
    record after these two queries, and the path it prints is the root
    server followed by the glue server. *)
Theorem X9_answer_after_one_glue_referral :
  forall env n d q s ns0 r0 ns1 r1 pre ans post,
    nth_error (heap s ROOT_SERVERS_ref)
              (rand env (clock s) mod length (heap s ROOT_SERVERS_ref))
    = Some ns0 ->
    udp env (clock s) ns0 d q = Reply r0 ->
    existsb (relevant q) (answer r0) = false ->
    forallb well_typed (additional r0) = true ->
    nth_error (additional_A_addresses (additional r0))
              (rand env (S (clock s))
               mod length (additional_A_addresses (additional r0)))
    = Some ns1 ->
    udp env (S (clock s)) ns1 d q = Reply r1 ->
    answer r1 = pre ++ ans :: post ->
    existsb (relevant q) pre = false ->
    rdtype ans = q ->
    fst (resolve env (S (S (S n))) d q s) = Done ans /\
    trace (snd (resolve env (S (S (S n))) d q s))
    = PrintPath [ns0; ns1]
        :: Query (additional_A_addresses (additional r0)) ns1 [ns0; ns1] d q
        :: Query (heap s ROOT_SERVERS_ref) ns0 [ns0] d q
        :: trace s /\
    clock (snd (resolve env (S (S (S n))) d q s)) = S (S (clock s)).
Proof.
  intros env n d q s ns0 r0 ns1 r1 pre ans post
         Hch0 Hudp0 Hans0 Hty Hch1 Hudp1 Hans1 Hpre Hq.
  set (glue := additional_A_addresses (additional r0)) in *.
  assert (Hne : glue <> []).
  { intros E. apply nth_error_In in Hch1. rewrite E in Hch1. exact Hch1. }
  assert (Hch0' : chosen env (prologue s) (next s) = Some ns0).
  { unfold chosen. rewrite prologue_pool. exact Hch0. }
  set (s1 := snd (new_list glue
                           (queried (prologue s) (next s) (S (next s)) d q
                                    ns0))).
  assert (Hpool1 : heap s1 (S (S (next s))) = glue).
  { unfold s1. cbn [new_list snd heap queried next prologue].
    rewrite Nat.eqb_refl. reflexivity. }
  assert (Hpath1 : heap s1 (S (next s)) = [ns0]).
  { unfold s1. cbn [new_list snd heap]. unfold queried at 1. cbn [next].
    rewrite prologue_next.
    destruct (Nat.eqb_spec (S (next s)) (S (S (next s)))); [lia|].
    rewrite queried_path, prologue_path. reflexivity. }
  assert (Hclock1 : clock s1 = S (clock s)) by reflexivity.
  assert (Htrace1 : trace s1
                    = Query (heap s ROOT_SERVERS_ref) ns0 [ns0] d q
                            :: trace s).
  { unfold s1. cbn [new_list snd trace].
    rewrite queried_trace by lia.
    rewrite prologue_pool, prologue_path, prologue_trace. reflexivity. }
  assert (Hch1' : chosen env s1 (S (S (next s))) = Some ns1).
  { unfold chosen. rewrite Hpool1, Hclock1. exact Hch1. }
  assert (Hudp1' : udp env (clock s1) ns1 d q = Reply r1)
    by (rewrite Hclock1; exact Hudp1).
  assert (Hrun : resolve env (S (S (S n))) d q s
                 = (Done ans,
                    snd (print (PrintPath (heap s1 (S (next s)) ++ [ns1]))
                               (queried s1 (S (S (next s))) (S (next s)) d q
                                        ns1)))).
  { rewrite resolve_unfold. cbn [loop].
    erewrite bind_done
      by exact (@iteration_glue env (resolve env (S (S n))) d q (next s)
                                (S (next s)) (prologue s) ns0 r0
                                Hch0' Hudp0 Hans0 Hty Hne).
    fold glue. rewrite prologue_next. fold s1.
    erewrite bind_done
      by exact (@iteration_hit env (resolve env (S (S n))) d q
                               (S (S (next s))) (S (next s)) s1 ns1 r1
                               pre ans post Hch1' Hudp1' Hans1 Hpre Hq).
    reflexivity. }
  rewrite Hrun. cbn [fst snd print trace clock].
  split; [reflexivity|]. split.
  - rewrite queried_trace by lia.
    rewrite Hpool1, Hpath1, Htrace1. reflexivity.
  - cbn [queried clock]. rewrite Hclock1. reflexivity.
Qed.

(** X9 on a network whose servers refer with glue until they are asked at
    a glue address. *)
Lemma X9_witness :
  fst (resolve (World (fun _ => 0)
                      (fun _ ns _ _ =>
                         if String.eqb ns "192.0.2.1"
                         then Reply (Response [A_rrset "www.example.com"
                                                       ["203.0.113.5"]] [] [])
                         else Reply (Response []
                                       [A_rrset "a.gtld.example"
                                                ["192.0.2.1"]]
                                       [NS_rrset "com" ["a.gtld.example"]])))
               3 "www.example.com" rdatatype.A module_loaded)
  = Done (A_rrset "www.example.com" ["203.0.113.5"]).
Proof.
  apply (@X9_answer_after_one_glue_referral
           (World (fun _ => 0)
                  (fun _ ns _ _ =>
                     if String.eqb ns "192.0.2.1"
                     then Reply (Response [A_rrset "www.example.com"
                                                   ["203.0.113.5"]] [] [])
                     else Reply (Response []
                                   [A_rrset "a.gtld.example" ["192.0.2.1"]]
                                   [NS_rrset "com" ["a.gtld.example"]])))
           0 "www.example.com" rdatatype.A module_loaded
           "198.41.0.4"
           (Response [] [A_rrset "a.gtld.example" ["192.0.2.1"]]
                     [NS_rrset "com" ["a.gtld.example"]])
           "192.0.2.1"
           (Response [A_rrset "www.example.com" ["203.0.113.5"]] [] [])
           [] (A_rrset "www.example.com" ["203.0.113.5"]) []);
    reflexivity.
Defined.

(** X10: a CNAME whose target cannot be resolved.  When the chase of the
    target ends with an exception, which can only be the exhaustion of the
    nested call, the enclosing call does not fail: its handler removes the
    server that sent the CNAME record from the pool, and the loop goes on
    with the servers that are left. *)
Theorem X10_unresolved_cname_target_costs_the_candidate :
  forall env n d q nameservers visited s ns r pre ans post cname its e,
    nameservers < next s ->
    nameservers <> visited ->
    chosen env s nameservers = Some ns ->
    udp env (clock s) ns d q = Reply r ->
    answer r = pre ++ ans :: post ->
    existsb (relevant q) pre = false ->
    rdtype ans <> q ->
    rdtype ans = rdatatype.CNAME ->
    items ans = Target cname :: its ->
    fst (resolve env n cname q
                 (snd (print (PrintCname cname)
                             (queried s nameservers visited d q ns))))
    = Raise e ->
    e = NoMoreNameservers /\
    exists pool',
      remove_first ns (heap s nameservers) = Some pool' /\
      iteration env (resolve env n) d q nameservers visited s
      = (Done (Continue nameservers),
         handled (snd (resolve env n cname q
                               (snd (print (PrintCname cname)
                                           (queried s nameservers visited
                                                    d q ns)))))
                 nameservers ns e pool').
Proof.
  intros env n d q nameservers visited s ns r pre ans post cname its e
         Hn Hnv Hch Hudp Hans Hpre Hq Hc Hit He.
  set (s2 := snd (print (PrintCname cname)
                        (queried s nameservers visited d q ns))) in *.
  destruct (chosen_nonempty _ _ _ Hch) as [_ Hin].
  destruct (resolve_ok env n cname q s2) as [Hext Hr].
  rewrite He in Hr. split; [exact Hr|].
  destruct (remove_first_In _ _ Hin) as [pool' Hrm].
  exists pool'. split; [exact Hrm|].
  assert (Hpool : heap (snd (resolve env n cname q s2)) nameservers
                  = heap s nameservers).
  { rewrite (ext_heap Hext) by (cbn; exact Hn).
    unfold s2. cbn [print snd heap]. apply queried_other. exact Hnv. }
  rewrite (@iteration_chase env (resolve env n) d q nameservers visited s ns
                            r pre ans post cname its
                            Hch Hudp Hans Hpre Hq Hc Hit).
  fold s2. unfold try_except. apply pair_eta in He.
  erewrite bind_raise by exact He.
  apply handler_run. rewrite Hpool. exact Hrm.
Qed.

(** X10 on an alias whose target nobody answers for. *)
Lemma X10_witness :
  NoMoreNameservers = NoMoreNameservers /\
  exists pool',
    remove_first "198.41.0.4" (heap entered 1) = Some pool' /\
    iteration (World (fun _ => 0)
                     (fun _ _ d _ =>
                        if String.eqb d "a.example"
                        then Reply (Response [CNAME_rrset "a.example"
                                                          "b.example"] [] [])
                        else Fail Timeout))
              (resolve (World (fun _ => 0)
                              (fun _ _ d _ =>
                                 if String.eqb d "a.example"
                                 then Reply (Response [CNAME_rrset
                                                         "a.example"
                                                         "b.example"] [] [])
                                 else Fail Timeout)) 20)
              "a.example" rdatatype.A 1 2 entered
    = (Done (Continue 1),
       handled (snd (resolve (World (fun _ => 0)
                                    (fun _ _ d _ =>
                                       if String.eqb d "a.example"
                                       then Reply (Response
                                                     [CNAME_rrset "a.example"
                                                                  "b.example"]
                                                     [] [])
                                       else Fail Timeout)) 20
                             "b.example" rdatatype.A
                             (snd (print (PrintCname "b.example")
                                         (queried entered 1 2 "a.example"
                                                  rdatatype.A
                                                  "198.41.0.4")))))
               1 "198.41.0.4" NoMoreNameservers pool').
Proof.
  apply (@X10_unresolved_cname_target_costs_the_candidate
           (World (fun _ => 0)
                  (fun _ _ d _ =>
                     if String.eqb d "a.example"
                     then Reply (Response [CNAME_rrset "a.example"
                                                       "b.example"] [] [])
                     else Fail Timeout))
           20 "a.example" rdatatype.A 1 2 entered "198.41.0.4"
           (Response [CNAME_rrset "a.example" "b.example"] [] [])
           [] (CNAME_rrset "a.example" "b.example") [] "b.example" []
           NoMoreNameservers);
    try reflexivity; try discriminate; vm_compute; lia.
Defined.
